(** * ToDo-List: the task store of [App.tsx]

    A shallow embedding of the state and the event handlers of the [App]
    component (the drag-and-drop revision of the file), with the properties
    of the task store, the view filter, the reorder handler and the
    local-storage persistence proved about it.

    Conventions
    - a JavaScript string is the list of its UTF-16 code units;
    - a [Date] object is its time value (milliseconds since the epoch) or
      the invalid date;
    - an optional property of an object is absent, present with the value
      [undefined], or present with a value;
    - React state is passed explicitly: a handler is a function from the
      state it closes over to the state it sets. *)

From Stdlib Require Import ZArith NArith List Ascii String Lia.
From Stdlib Require DecimalZ.
From stdpp Require Import base decidable option list.

Local Open Scope Z_scope.

(** ** JavaScript values *)

(** A string as the sequence of its UTF-16 code units. *)
Definition jsstring := list N.

(** Code units of an ASCII literal, for readable examples. *)
Definition js (s : string) : jsstring :=
  (fun a => N_of_ascii a) <$> list_ascii_of_string s.

(** A [Date] object: a time value in milliseconds, or [Invalid Date]. *)
Inductive Date :=
| Instant (ms : Z)
| InvalidDate.

(** An optional property [p?: A] of an object literal. *)
Inductive optional (A : Type) :=
| Absent
| Undefined
| Present (a : A).
Arguments Absent {A}.
Arguments Undefined {A}.
Arguments Present {A} a.

(** The property holds a value (it is neither missing nor [undefined]). *)
Definition has_value {A} (o : optional A) : bool :=
  match o with Present _ => true | _ => false end.

(** The two JSON values a date property takes in the persisted array:
    [Date.prototype.toJSON] gives an ISO string, or [null] for an invalid
    date. *)
Inductive jdate :=
| JNull
| JString (s : jsstring).

(** What a property declared [Date] holds at run time: a [Date] object, or
    the JSON value that [JSON.parse] delivered and nothing converted. *)
Inductive DateValue :=
| DateObj (d : Date)
| Raw (j : jdate).

(** [interface Todo] *)
Record Todo := mkTodo {
  id : jsstring;
  text : jsstring;
  completed : bool;
  createdAt : Date;
  completedAt : optional Date;
  deadline : optional DateValue;
}.

#[global] Instance Date_eq_dec : EqDecision Date.
Proof. solve_decision. Defined.
#[global] Instance optional_eq_dec {A} `{EqDecision A} : EqDecision (optional A).
Proof. solve_decision. Defined.
#[global] Instance jdate_eq_dec : EqDecision jdate.
Proof. solve_decision. Defined.
#[global] Instance DateValue_eq_dec : EqDecision DateValue.
Proof. solve_decision. Defined.
#[global] Instance Todo_eq_dec : EqDecision Todo.
Proof. solve_decision. Defined.

(** ** Array primitives *)

(** [Array.prototype.findIndex]: the first index whose element satisfies the
    predicate, [-1] when there is none. *)
Fixpoint findIndex {A} (p : A -> bool) (l : list A) : Z :=
  match l with
  | [] => -1
  | x :: l' =>
      if p x then 0
      else let i := findIndex p l' in if i <? 0 then -1 else i + 1
  end.

(** The start index of [Array.prototype.splice] on an array of [len]
    elements: a negative start counts from the end, and the result is
    clamped to [0 .. len]. *)
Definition spliceStart (len : nat) (start : Z) : nat :=
  if start <? 0 then Z.to_nat (Z.max (Z.of_nat len + start) 0)
  else Z.to_nat (Z.min start (Z.of_nat len)).

(** [arrayMove] of [@dnd-kit/sortable]:
<<
  const newArray = array.slice();
  newArray.splice(to < 0 ? newArray.length + to : to, 0,
                  newArray.splice(from, 1)[0]);
  return newArray;
>>
    The first argument of the outer [splice] is evaluated before the inner
    [splice] shortens the array.  When the inner [splice] removes nothing,
    [[0]] is [undefined] and that is what is inserted: an element of the
    result is [None] for [undefined]. *)
Definition arrayMove {A} (array : list A) (from to : Z) : list (option A) :=
  let newArray := array in
  let start := if to <? 0 then Z.of_nat (length newArray) + to else to in
  let k := spliceStart (length newArray) from in
  let removed := take 1 (drop k newArray) in
  let newArray := take k newArray ++ drop (k + 1) newArray in
  let j := spliceStart (length newArray) start in
  (Some <$> take j newArray) ++ [head removed] ++ (Some <$> drop j newArray).

(** ** The view filter *)

(** [useState<'all' | 'active' | 'completed'>] *)
Inductive Filter := all | active | completed_.

(** The predicate of [filteredTodos]. *)
Definition visible (filter : Filter) (todo : Todo) : bool :=
  match filter with
  | all => true
  | active => negb (completed todo)
  | completed_ => completed todo
  end.

(** [const filteredTodos = todos.filter(todo => ...)] *)
Definition filteredTodos (filter : Filter) (todos : list Todo) : list Todo :=
  List.filter (visible filter) todos.

(** The tasks the filter leaves out, in store order. *)
Definition hiddenTodos (filter : Filter) (todos : list Todo) : list Todo :=
  List.filter (fun todo => negb (visible filter todo)) todos.

(** ** The reorder handler *)

(** The part of a [DragEndEvent] the handler reads: [active.id] and
    [over?.id], which is [undefined] when [over] is [null]. *)
Record DragEndEvent := mkDragEnd {
  active_id : jsstring;
  over_id : option jsstring;
}.

(** [t.id === x] for [x] a string or [undefined]. *)
Definition id_is (x : option jsstring) (t : Todo) : bool :=
  bool_decide (Some (id t) = x).

(** [handleDragEnd]: the array given to [setTodos], or the current array
    when the guard fails and nothing is set. *)
Definition handleDragEnd (todos : list Todo) (event : DragEndEvent)
  : list (option Todo) :=
  if bool_decide (Some (active_id event) ≠ over_id event) then
    let oldIndex := findIndex (id_is (Some (active_id event))) todos in
    let newIndex := findIndex (id_is (over_id event)) todos in
    arrayMove todos oldIndex newIndex
  else Some <$> todos.

(** ** Strings *)

(** The code units [String.prototype.trim] removes: the ECMAScript
    [WhiteSpace] and [LineTerminator] code points, all of one code unit. *)
Definition isWhiteSpace (c : N) : bool :=
  match c with
  | 9 | 10 | 11 | 12 | 13 | 32 | 160 | 5760
  | 8192 | 8193 | 8194 | 8195 | 8196 | 8197 | 8198 | 8199 | 8200 | 8201 | 8202
  | 8232 | 8233 | 8239 | 8287 | 12288 | 65279 => true
  | _ => false
  end%N.

Fixpoint trimStart (s : jsstring) : jsstring :=
  match s with
  | c :: s' => if isWhiteSpace c then trimStart s' else s
  | [] => []
  end.

Definition trimEnd (s : jsstring) : jsstring := rev (trimStart (rev s)).

(** [String.prototype.trim] *)
Definition trim (s : jsstring) : jsstring := trimEnd (trimStart s).

(** A string is truthy when it is not empty. *)
Definition truthy (s : jsstring) : bool :=
  match s with [] => false | _ => true end.

Fixpoint digits (u : Decimal.uint) : jsstring :=
  match u with
  | Decimal.Nil => []
  | Decimal.D0 u => 48%N :: digits u
  | Decimal.D1 u => 49%N :: digits u
  | Decimal.D2 u => 50%N :: digits u
  | Decimal.D3 u => 51%N :: digits u
  | Decimal.D4 u => 52%N :: digits u
  | Decimal.D5 u => 53%N :: digits u
  | Decimal.D6 u => 54%N :: digits u
  | Decimal.D7 u => 55%N :: digits u
  | Decimal.D8 u => 56%N :: digits u
  | Decimal.D9 u => 57%N :: digits u
  end.

(** [Number.prototype.toString] on an integer such as [Date.now()]: its
    decimal digits, after a minus sign when it is negative. *)
Definition Number_toString (n : Z) : jsstring :=
  match Z.to_int n with
  | Decimal.Pos u => digits u
  | Decimal.Neg u => 45%N :: digits u
  end.

(** ** The component state and its handlers *)

Module App.

(** The pieces of [useState] the handlers of the task store read or set. *)
Record State := mkState {
  todos : list Todo;
  newTodo : jsstring;
  newDeadline : jsstring;
  editingId : option jsstring;
  editingText : jsstring;
  filter : Filter;
  justAddedId : option jsstring;
}.

Definition setTodos (l : list Todo) (s : State) : State :=
  mkState l (newTodo s) (newDeadline s) (editingId s) (editingText s)
          (filter s) (justAddedId s).

Definition setNewTodo (x : jsstring) (s : State) : State :=
  mkState (todos s) x (newDeadline s) (editingId s) (editingText s)
          (filter s) (justAddedId s).

Definition setNewDeadline (x : jsstring) (s : State) : State :=
  mkState (todos s) (newTodo s) x (editingId s) (editingText s)
          (filter s) (justAddedId s).

Definition setEditingId (x : option jsstring) (s : State) : State :=
  mkState (todos s) (newTodo s) (newDeadline s) x (editingText s)
          (filter s) (justAddedId s).

Definition setEditingText (x : jsstring) (s : State) : State :=
  mkState (todos s) (newTodo s) (newDeadline s) (editingId s) x
          (filter s) (justAddedId s).

Definition setFilter (x : Filter) (s : State) : State :=
  mkState (todos s) (newTodo s) (newDeadline s) (editingId s) (editingText s)
          x (justAddedId s).

Definition setJustAddedId (x : option jsstring) (s : State) : State :=
  mkState (todos s) (newTodo s) (newDeadline s) (editingId s) (editingText s)
          (filter s) x.

Section Handlers.

(** [new Date(s)] for a string [s]: the platform's date parser. *)
Variable Date_parse : jsstring -> Date.

(** [addTodo], with the two clock readings it takes: [Date.now()] for the
    id and [new Date()] for [createdAt]. *)
Definition addTodo (now created : Z) (s : State) : State :=
  if bool_decide (trim (newTodo s) = []) then s
  else
    let newId := Number_toString now in
    let todo :=
      {| id := newId;
         text := newTodo s;
         completed := false;
         createdAt := Instant created;
         completedAt := Absent;
         deadline := if truthy (newDeadline s)
                     then Present (DateObj (Date_parse (newDeadline s)))
                     else Undefined |} in
    setJustAddedId (Some newId)
      (setNewDeadline [] (setNewTodo [] (setTodos (todos s ++ [todo]) s))).

End Handlers.

(** The callback of [toggleTodo]; [now] is the reading of [new Date()],
    taken as one reading for the whole [map]. *)
Definition toggle1 (target : jsstring) (now : Z) (todo : Todo) : Todo :=
  if bool_decide (id todo = target) then
    if negb (completed todo) then
      {| id := id todo; text := text todo; completed := true;
         createdAt := createdAt todo;
         completedAt := Present (Instant now);
         deadline := deadline todo |}
    else
      {| id := id todo; text := text todo; completed := false;
         createdAt := createdAt todo;
         completedAt := Absent;
         deadline := deadline todo |}
  else todo.

(** [toggleTodo] *)
Definition toggleTodo (target : jsstring) (now : Z) (s : State) : State :=
  setTodos (toggle1 target now <$> todos s) s.

(** [deleteTodo] *)
Definition deleteTodo (target : jsstring) (s : State) : State :=
  setTodos (List.filter (fun todo => bool_decide (id todo ≠ target)) (todos s)) s.

(** [startEditing] *)
Definition startEditing (todo : Todo) (s : State) : State :=
  setEditingText (text todo) (setEditingId (Some (id todo)) s).

(** The callback of [submitEdit]: [{ ...todo, text: editingText }]. *)
Definition edit1 (target newText : jsstring) (todo : Todo) : Todo :=
  if bool_decide (id todo = target) then
    {| id := id todo; text := newText; completed := completed todo;
       createdAt := createdAt todo; completedAt := completedAt todo;
       deadline := deadline todo |}
  else todo.

(** [submitEdit] *)
Definition submitEdit (s : State) : State :=
  match editingId s with
  | Some target =>
      setEditingText []
        (setEditingId None
           (setTodos (edit1 target (editingText s) <$> todos s) s))
  | None => s
  end.

(** [cancelEdit] *)
Definition cancelEdit (s : State) : State :=
  setEditingText [] (setEditingId None s).

(** ** Persistence *)

(** An element of the persisted array as [JSON.parse] returns it and the
    code types it ([const parsed: Todo[]]): dates are JSON strings or
    [null], and the two optional properties may be missing. *)
Record StoredTodo := mkStored {
  s_id : jsstring;
  s_text : jsstring;
  s_completed : bool;
  s_createdAt : jdate;
  s_completedAt : option jdate;
  s_deadline : option jdate;
}.

#[global] Instance StoredTodo_eq_dec : EqDecision StoredTodo.
Proof. solve_decision. Defined.

(** The value of a JSON text, as far as the loader looks at it: an array
    whose elements are task objects or [null], or a value that is no array. *)
Inductive JSONValue :=
| JOther
| JArray (elements : list (option StoredTodo)).

Section Persistence.

(** The platform: [Date.prototype.toISOString] on a time value, [new Date(s)]
    on a string, [JSON.stringify] on an array of task objects and
    [JSON.parse], which is [None] when it throws a [SyntaxError]. *)
Variable toISOString : Z -> jsstring.
Variable Date_parse : jsstring -> Date.
Variable JSON_stringify : list StoredTodo -> jsstring.
Variable JSON_parse : jsstring -> option JSONValue.

(** [Date.prototype.toJSON]: [null] for an invalid date. *)
Definition toJSON (d : Date) : jdate :=
  match d with
  | Instant t => JString (toISOString t)
  | InvalidDate => JNull
  end.

(** What [JSON.stringify] writes for one task: dates through [toJSON], a
    property that is missing or [undefined] left out, a raw JSON value as
    it is. *)
Definition toStored (todo : Todo) : StoredTodo :=
  {| s_id := id todo;
     s_text := text todo;
     s_completed := completed todo;
     s_createdAt := toJSON (createdAt todo);
     s_completedAt :=
       match completedAt todo with
       | Present d => Some (toJSON d)
       | _ => None
       end;
     s_deadline :=
       match deadline todo with
       | Present (DateObj d) => Some (toJSON d)
       | Present (Raw j) => Some j
       | _ => None
       end |}.

(** The save effect: [localStorage.setItem('todos', JSON.stringify(todos))]. *)
Definition saveTodos (todos : list Todo) : jsstring :=
  JSON_stringify (toStored <$> todos).

(** [new Date(v)] for a JSON string or [null] ([null] is the number 0). *)
Definition newDate (v : jdate) : Date :=
  match v with
  | JNull => Instant 0
  | JString s => Date_parse s
  end.

(** [todo.completedAt ? ... : ...] on a JSON value: [null] and the empty
    string are falsy (and so is [undefined], for a missing property). *)
Definition truthy_date (v : jdate) : bool :=
  match v with
  | JString s => truthy s
  | JNull => false
  end.

(** The callback of [parsed.map]:
<<
  { ...todo, id: String(todo.id), createdAt: new Date(todo.createdAt),
    completedAt: todo.completedAt ? new Date(todo.completedAt) : undefined }
>>
    The spread copies [text], [completed] and, when it is there, [deadline]
    as they were parsed; [String] is the identity on a string id.  The
    callback of the mount effect differs only in leaving [id] to the spread. *)
Definition revive (todo : StoredTodo) : Todo :=
  {| id := s_id todo;
     text := s_text todo;
     completed := s_completed todo;
     createdAt := newDate (s_createdAt todo);
     completedAt :=
       match s_completedAt todo with
       | Some v => if truthy_date v then Present (newDate v) else Undefined
       | None => Undefined
       end;
     deadline :=
       match s_deadline todo with
       | Some v => Present (Raw v)
       | None => Absent
       end |}.

(** The body of the [try] block: [None] when it throws, which is when
    [JSON.parse] throws, when the parsed value has no [map], or when an
    element is [null] and reading [todo.id] throws. *)
Definition parseTodos (stored : jsstring) : option (list Todo) :=
  match JSON_parse stored with
  | Some (JArray elements) => mapM (fun e => revive <$> e) elements
  | Some JOther => None
  | None => None
  end.

(** The initializer of [useState<Todo[]>]; [stored] is
    [localStorage.getItem('todos')], [None] for [null]. *)
Definition initialTodos (stored : option jsstring) : list Todo :=
  match stored with
  | Some stored =>
      if truthy stored then
        match parseTodos stored with
        | Some l => l
        | None => []
        end
      else []
  | None => []
  end.

(** The mount effect: it sets the array again, and sets nothing when the
    [try] block throws. *)
Definition loadOnMount (stored : option jsstring) (s : State) : State :=
  match stored with
  | Some stored =>
      if truthy stored then
        match parseTodos stored with
        | Some l => setTodos l s
        | None => s
        end
      else s
  | None => s
  end.

(** The state after the first render and its effects. *)
Definition mount (stored : option jsstring) : State :=
  loadOnMount stored (mkState (initialTodos stored) [] [] None [] all None).

(** [load]: the task collection the component starts with. *)
Definition load (stored : option jsstring) : list Todo :=
  todos (mount stored).

End Persistence.

(** ** User actions *)

(** An array without [undefined] elements. *)
Fixpoint defined {A} (l : list (option A)) : option (list A) :=
  match l with
  | [] => Some []
  | Some x :: l' => match defined l' with Some r => Some (x :: r) | None => None end
  | None :: _ => None
  end.

(** The events of the user interface that reach the task store. *)
Inductive Action :=
| TypeNewTodo (x : jsstring)
| PickDeadline (x : jsstring)
| AddTodo (now created : Z)
| ToggleTodo (target : jsstring) (now : Z)
| DeleteTodo (target : jsstring)
| StartEditing (todo : Todo)
| TypeEditingText (x : jsstring)
| SubmitEdit
| CancelEdit
| SetFilter (x : Filter)
| DragEnd (event : DragEndEvent)
| HighlightTimeout.

Section Dispatch.

Variable Date_parse : jsstring -> Date.

(** The state after an event.  [None] is the one case in which there is no
    next state: [arrayMove] put [undefined] into the array, and the render
    that follows throws on [todo.completed]. *)
Definition dispatch (a : Action) (s : State) : option State :=
  match a with
  | TypeNewTodo x => Some (setNewTodo x s)
  | PickDeadline x => Some (setNewDeadline x s)
  | AddTodo now created => Some (addTodo Date_parse now created s)
  | ToggleTodo target now => Some (toggleTodo target now s)
  | DeleteTodo target => Some (deleteTodo target s)
  | StartEditing todo => Some (startEditing todo s)
  | TypeEditingText x => Some (setEditingText x s)
  | SubmitEdit => Some (submitEdit s)
  | CancelEdit => Some (cancelEdit s)
  | SetFilter x => Some (setFilter x s)
  | DragEnd event =>
      match defined (handleDragEnd (todos s) event) with
      | Some l => Some (setTodos l s)
      | None => None
      end
  | HighlightTimeout => Some (setJustAddedId None s)
  end.

Fixpoint run (acts : list Action) (s : State) : option State :=
  match acts with
  | [] => Some s
  | a :: acts' =>
      match dispatch a s with
      | Some s' => run acts' s'
      | None => None
      end
  end.

End Dispatch.

End App.


(** ** The rest of the component *)

(** The counters of the summary line:
    [total], [active] and [completed] of the component. *)
Module Summary.

Definition total (todos : list Todo) : nat := length todos.

Definition active (todos : list Todo) : nat :=
  length (List.filter (fun t => negb (completed t)) todos).

Definition completed (todos : list Todo) : nat :=
  length (List.filter (fun t => completed t) todos).

End Summary.

(** The truthiness of what a date property holds: a [Date] object is
    truthy, a JSON value as [App.truthy_date] says. *)
Definition truthy_value (v : DateValue) : bool :=
  match v with
  | DateObj _ => true
  | Raw j => App.truthy_date j
  end.

Section Overdue.

Variable Date_parse : jsstring -> Date.

(** [new Date().setHours(0,0,0,0)]: the time value of the local midnight
    with which today began. *)
Variable midnight : Z.

(** [new Date(v)] for what a date property holds: a copy of the [Date]
    object, or the date of the JSON value. *)
Definition newDateOf (v : DateValue) : Date :=
  match v with
  | DateObj d => d
  | Raw j => App.newDate Date_parse j
  end.

(** [isOverdue], as the truthiness of what it returns:
<<
  todo.deadline && !todo.completed &&
  new Date(todo.deadline).getTime() < new Date().setHours(0,0,0,0)
>>
    [getTime] of an invalid date is [NaN], which is less than nothing. *)
Definition isOverdue (todo : Todo) : bool :=
  match deadline todo with
  | Present v =>
      truthy_value v && negb (completed todo) &&
      match newDateOf v with
      | Instant t => t <? midnight
      | InvalidDate => false
      end
  | _ => false
  end.

End Overdue.

(** The keys of the edit input:
<<
  if (e.key === 'Enter') submitEdit();
  if (e.key === 'Escape') cancelEdit();
>>
    A key is one of the two at most, so at most one handler is called. *)
Definition editKeyDown (key : jsstring) (s : App.State) : App.State :=
  if bool_decide (key = js "Enter") then App.submitEdit s
  else if bool_decide (key = js "Escape") then App.cancelEdit s
  else s.

(** The keys of the add input: [e.key === 'Enter' && addTodo()]. *)
Definition addKeyPress (Date_parse : jsstring -> Date) (key : jsstring)
    (now created : Z) (s : App.State) : App.State :=
  if bool_decide (key = js "Enter") then App.addTodo Date_parse now created s
  else s.

(** The theme: the initializer of [darkMode] and the effect that follows
    it. *)
Module Theme.

(** [DOMTokenList.add] and [DOMTokenList.remove] on the classes of the
    root element. *)
Definition classList_add (token : jsstring) (classes : list jsstring)
  : list jsstring :=
  if bool_decide (token ∈ classes) then classes else classes ++ [token].

Definition classList_remove (token : jsstring) (classes : list jsstring)
  : list jsstring :=
  List.filter (fun c => bool_decide (c ≠ token)) classes.

(** What the effect writes to: the classes of [document.documentElement]
    and the slot ['theme'] of the local storage ([None] when it was never
    set). *)
Record Page := mkPage {
  classes : list jsstring;
  theme : option jsstring;
}.

(** The initializer of [useState] for [darkMode]; [hasWindow] is
    [typeof window !== 'undefined'] and [prefersDark] what
    [matchMedia('(prefers-color-scheme: dark)').matches] gives. *)
Definition initialDarkMode (hasWindow : bool) (stored : option jsstring)
    (prefersDark : bool) : bool :=
  if hasWindow then
    match stored with
    | Some stored =>
        if truthy stored then bool_decide (stored = js "dark") else prefersDark
    | None => prefersDark
    end
  else false.

(** The effect on [darkMode]. *)
Definition applyDarkMode (darkMode : bool) (p : Page) : Page :=
  if darkMode then
    {| classes := classList_add (js "dark") (classes p);
       theme := Some (js "dark") |}
  else
    {| classes := classList_remove (js "dark") (classes p);
       theme := Some (js "light") |}.

End Theme.
(** * Specification vocabulary *)

(** The array without its element at [k]. *)
Definition without {A} (k : nat) (l : list A) : list A := take k l ++ drop (S k) l.

(** [x] put in at position [j]. *)
Definition insertAt {A} (j : nat) (x : A) (l : list A) : list A := take j l ++ x :: drop j l.

(** A sample task, for the worked examples. *)
Definition task (i t : string) (done : bool) : Todo :=
  {| id := js i; text := js t; completed := done; createdAt := Instant 0;
     completedAt := if done then Present (Instant 1) else Absent;
     deadline := Undefined |}.

(** [l] is [l1] and [l2] shuffled together, each keeping its own order. *)
Inductive Interleave {A} : list A -> list A -> list A -> Prop :=
| Interleave_nil : Interleave [] [] []
| Interleave_left x l1 l2 l :
    Interleave l1 l2 l -> Interleave (x :: l1) l2 (x :: l)
| Interleave_right x l1 l2 l :
    Interleave l1 l2 l -> Interleave l1 (x :: l2) (x :: l).

(** Blank text: empty, or white space only. *)
Definition blank (s : jsstring) : bool := forallb isWhiteSpace s.

(** The ids of a store, in store order. *)
Definition ids (todos : list Todo) : list jsstring := id <$> todos.

(** [completedAt] holds a value exactly when [completed] is true. *)
Definition consistent (todo : Todo) : Prop :=
  completed todo = has_value (completedAt todo).

(** Every [addTodo] of a run that adds a task draws, from the clock, an id
    that no task of the store has at that moment. *)
Fixpoint adds_fresh (Date_parse : jsstring -> Date) (acts : list App.Action)
    (s : App.State) : Prop :=
  match acts with
  | [] => True
  | a :: acts' =>
      match a with
      | App.AddTodo now _ =>
          blank (App.newTodo s) = true ∨ Number_toString now ∉ ids (App.todos s)
      | _ => True
      end ∧
      match App.dispatch Date_parse a s with
      | Some s' => adds_fresh Date_parse acts' s'
      | None => True
      end
  end.

(** The state of a first visit: nothing stored, nothing typed. *)
Definition emptyState : App.State := App.mkState [] [] [] None [] all None.

(** A state with the given store and an edit of [target] in progress. *)
Definition editing (todos : list Todo) (target newText : string) : App.State :=
  App.mkState todos [] [] (Some (js target)) (js newText) all None.

(** A date parser that accepts no string, for runs that pick no deadline. *)
Definition noDates (_ : jsstring) : Date := InvalidDate.

(** The instant a date property denotes, whichever way it is held. *)
Definition instant_of (Date_parse : jsstring -> Date) (v : DateValue) : Date :=
  match v with
  | DateObj d => d
  | Raw j => App.newDate Date_parse j
  end.

(** Two optional properties with related values; a missing property and one
    that is [undefined] are not told apart. *)
Definition same_optional {A B} (R : A -> B -> Prop)
    (a : optional A) (b : optional B) : Prop :=
  match a, b with
  | Present x, Present y => R x y
  | Present _, _ | _, Present _ => False
  | _, _ => True
  end.

(** Two tasks that are equal up to the representation of their dates. *)
Definition same_task (Date_parse : jsstring -> Date) (a b : Todo) : Prop :=
  id a = id b ∧ text a = text b ∧ completed a = completed b ∧
  createdAt a = createdAt b ∧
  same_optional eq (completedAt a) (completedAt b) ∧
  same_optional (fun x y => instant_of Date_parse x = instant_of Date_parse y)
    (deadline a) (deadline b).

(** A well-formed task: the dates it holds as [Date] objects are valid. *)
Definition valid_dates (todo : Todo) : Prop :=
  createdAt todo ≠ InvalidDate ∧
  completedAt todo ≠ Present InvalidDate ∧
  deadline todo ≠ Present (DateObj InvalidDate).

(** JSON text written with single quotes for the double ones. *)
Definition json (s : string) : jsstring :=
  (fun c => if (c =? 39)%N then 34%N else c) <$> js s.

(** A task with a deadline, as [addTodo] makes it when a date is picked. *)
Definition dueTask : Todo :=
  {| id := js "1"; text := js "A"; completed := false; createdAt := Instant 0;
     completedAt := Absent;
     deadline := Present (DateObj (Instant 86400000)) |}.

(** The platform on the values of the worked examples: [toISOString] on two
    instants, [JSON.stringify] on the store [[dueTask]] and the empty store,
    [new Date] on their ISO strings and on one date of the date picker,
    and [JSON.parse] on five texts; it throws on any other text. *)
Definition sample_toISOString (t : Z) : jsstring :=
  if bool_decide (t = 0) then js "1970-01-01T00:00:00.000Z"
  else if bool_decide (t = 86400000) then js "1970-01-02T00:00:00.000Z"
  else js "?".

Definition sample_Date_parse (s : jsstring) : Date :=
  if bool_decide (s = js "1970-01-01T00:00:00.000Z") then Instant 0
  else if bool_decide (s = js "1970-01-02T00:00:00.000Z") then Instant 86400000
  else if bool_decide (s = js "1970-01-02") then Instant 86400000
  else InvalidDate.

Definition dueTaskText : jsstring :=
  json "[{'id':'1','text':'A','completed':false,'createdAt':'1970-01-01T00:00:00.000Z','deadline':'1970-01-02T00:00:00.000Z'}]".

Definition sample_stringify (l : list App.StoredTodo) : jsstring :=
  if bool_decide (l = [App.toStored sample_toISOString dueTask]) then dueTaskText
  else js "[]".

Definition sample_parse (s : jsstring) : option App.JSONValue :=
  if bool_decide (s = dueTaskText)
  then Some (App.JArray [Some (App.toStored sample_toISOString dueTask)])
  else if bool_decide (s = js "[]") then Some (App.JArray [])
  else if bool_decide (s = js "[null]") then Some (App.JArray [None])
  else if bool_decide (s = js "null") then Some App.JOther
  else if bool_decide (s = js "{}") then Some App.JOther
  else None.

(** Decide a closed proposition by evaluation. *)
Ltac by_evaluation := apply (bool_decide_unpack _); vm_compute; exact I.


(** The clock readings from which the adds of a run make their ids. *)
Fixpoint clockReadings (acts : list App.Action) : list Z :=
  match acts with
  | [] => []
  | App.AddTodo now _ :: acts' => now :: clockReadings acts'
  | _ :: acts' => clockReadings acts'
  end.

(** What no handler changes in a task: its id, its creation date and its
    deadline. *)
Definition origin (todo : Todo) : jsstring * Date * optional DateValue :=
  (id todo, createdAt todo, deadline todo).

(** A task saved and read back. *)
Definition reloaded (toISOString : Z -> jsstring) (Date_parse : jsstring -> Date)
    (todo : Todo) : Todo :=
  App.revive Date_parse (App.toStored toISOString todo).

(** A valid date prints as a non-empty string that the date parser reads
    back as the same instant. *)
Definition date_reads_back (toISOString : Z -> jsstring)
    (Date_parse : jsstring -> Date) (d : Date) : Prop :=
  match d with
  | Instant t => Date_parse (toISOString t) = Instant t ∧
                 truthy (toISOString t) = true
  | InvalidDate => True
  end.

(** The [Date] objects of a task read back. *)
Definition dates_read_back (toISOString : Z -> jsstring)
    (Date_parse : jsstring -> Date) (todo : Todo) : Prop :=
  date_reads_back toISOString Date_parse (createdAt todo) ∧
  match completedAt todo with
  | Present d => date_reads_back toISOString Date_parse d
  | _ => True
  end ∧
  match deadline todo with
  | Present (DateObj d) => date_reads_back toISOString Date_parse d
  | _ => True
  end.

(** A stored array that no handler of the component would have written:
    two elements with one id, the first with blank text, completed and
    without [completedAt]. *)
Definition oddStored : list App.StoredTodo :=
  [ App.mkStored (js "1") (js " ") true (JString (js "1970-01-01T00:00:00.000Z"))
      None None;
    App.mkStored (js "1") (js "B") false (JString (js "1970-01-01T00:00:00.000Z"))
      None None ].

Definition oddText : jsstring :=
  json "[{'id':'1','text':' ','completed':true,'createdAt':'1970-01-01T00:00:00.000Z'},{'id':'1','text':'B','completed':false,'createdAt':'1970-01-01T00:00:00.000Z'}]".

(** [JSON.parse] on that text; it throws on any other. *)
Definition odd_parse (s : jsstring) : option App.JSONValue :=
  if bool_decide (s = oddText) then Some (App.JArray (Some <$> oddStored))
  else None.
(** * Properties *)

(** ** Arrays *)

Section ArrayFacts.
Context {A : Type}.
Implicit Types (l : list A) (p : A -> bool).

Lemma findIndex_range p l :
  findIndex p l = -1 ∨ 0 ≤ findIndex p l < Z.of_nat (length l).
Proof.
  induction l as [|x l IH]; simpl; [by left|].
  destruct (p x); [right; lia|].
  destruct (Z.ltb_spec (findIndex p l) 0); [by left|right; lia].
Qed.

(** A non-negative result is the position of the first match. *)
Lemma findIndex_found p l (k : nat) :
  findIndex p l = Z.of_nat k →
  ∃ x, l !! k = Some x ∧ p x = true ∧
       ∀ j y, (j < k)%nat → l !! j = Some y → p y = false.
Proof.
  revert k. induction l as [|x l IH]; simpl; intros k Hk; [lia|].
  destruct (p x) eqn:Hpx.
  - assert (k = 0%nat) as -> by lia. exists x. split_and!; [done..|]. lia.
  - destruct (Z.ltb_spec (findIndex p l) 0); [lia|].
    destruct k as [|k]; [lia|].
    destruct (IH k) as (y & Hy & Hpy & Hfirst); [lia|].
    exists y. split_and!; [done..|].
    intros [|j] z Hj Hz; simplify_eq/=; [done|].
    eapply Hfirst; [|done]. lia.
Qed.

(** An element that matches is found, at its position or before. *)
Lemma findIndex_elem p l x :
  x ∈ l → p x = true → 0 ≤ findIndex p l.
Proof.
  induction 1 as [x l|x y l _ IH]; simpl; intros Hp.
  - by rewrite Hp.
  - destruct (p y); [done|]. specialize (IH Hp).
    destruct (Z.ltb_spec (findIndex p l) 0); lia.
Qed.

Lemma findIndex_none p l :
  (∀ x, x ∈ l → p x = false) → findIndex p l = -1.
Proof.
  induction l as [|x l IH]; simpl; intros Hp; [done|].
  rewrite Hp; [|left]. rewrite IH; [done|].
  intros y Hy. apply Hp. by right.
Qed.

Lemma spliceStart_nat len (k : nat) :
  (k ≤ len)%nat → spliceStart len (Z.of_nat k) = k.
Proof.
  intros Hk. unfold spliceStart.
  destruct (Z.ltb_spec (Z.of_nat k) 0); lia.
Qed.

Lemma spliceStart_le len start : (spliceStart len start ≤ len)%nat.
Proof. unfold spliceStart. destruct (Z.ltb_spec start 0); lia. Qed.

Lemma without_length k l x :
  l !! k = Some x → S (length (without k l)) = length l.
Proof.
  intros Hk. apply lookup_lt_Some in Hk. unfold without.
  rewrite length_app, length_take, length_drop. lia.
Qed.

Lemma without_perm k l x : l !! k = Some x → x :: without k l ≡ₚ l.
Proof.
  intros Hk. unfold without.
  rewrite <- (take_drop_middle l k x Hk) at 3.
  by rewrite Permutation_middle.
Qed.

Lemma insertAt_perm j x l : insertAt j x l ≡ₚ x :: l.
Proof.
  unfold insertAt. rewrite <- Permutation_middle. by rewrite take_drop.
Qed.

(** Taking out and putting in an element the predicate rejects is not seen
    through [filter]. *)
Lemma filter_without p k l x :
  l !! k = Some x → p x = false →
  List.filter p (without k l) = List.filter p l.
Proof.
  intros Hk Hp. unfold without.
  rewrite <- (take_drop_middle l k x Hk) at 3.
  rewrite !List.filter_app. simpl. by rewrite Hp.
Qed.

Lemma filter_insertAt p j x l :
  p x = false → List.filter p (insertAt j x l) = List.filter p l.
Proof.
  intros Hp. unfold insertAt. rewrite List.filter_app. simpl. rewrite Hp.
  by rewrite <- List.filter_app, take_drop.
Qed.

(** [arrayMove] from a position of the array: the element is taken out and
    put in at the start index that [splice] computes from [to]. *)
Lemma arrayMove_at l (k : nat) x to :
  l !! k = Some x →
  arrayMove l (Z.of_nat k) to =
    Some <$> insertAt
      (spliceStart (length (without k l))
         (if to <? 0 then Z.of_nat (length l) + to else to))
      x (without k l).
Proof.
  intros Hk. pose proof (lookup_lt_Some _ _ _ Hk) as Hlt.
  unfold arrayMove, insertAt, without.
  rewrite spliceStart_nat by lia.
  replace (k + 1)%nat with (S k) by lia.
  rewrite (drop_S l x k Hk). simpl.
  by rewrite fmap_app.
Qed.

(** The source index counts through the start index of [splice] only. *)
Lemma arrayMove_from l from from' to :
  spliceStart (length l) from = spliceStart (length l) from' →
  arrayMove l from to = arrayMove l from' to.
Proof. unfold arrayMove. by intros ->. Qed.

(** A source index of [-1] takes the last element. *)
Lemma arrayMove_last l x to :
  arrayMove (l ++ [x]) (-1) to =
    Some <$> insertAt
      (spliceStart (length l)
         (if to <? 0 then Z.of_nat (length (l ++ [x])) + to else to))
      x l.
Proof.
  assert (Hk : (l ++ [x]) !! length l = Some x).
  { rewrite lookup_app_r by lia. by rewrite Nat.sub_diag. }
  assert (Hw : without (length l) (l ++ [x]) = l).
  { unfold without. rewrite take_app_length.
    rewrite drop_ge by (rewrite length_app; simpl; lia). by rewrite app_nil_r. }
  rewrite (arrayMove_from _ (-1) (Z.of_nat (length l))).
  - by rewrite (arrayMove_at _ _ x), Hw.
  - unfold spliceStart. rewrite length_app. simpl.
    destruct (Z.ltb_spec (Z.of_nat (length l)) 0); lia.
Qed.

End ArrayFacts.

Lemma insertAt_end {A} (x : A) (l : list A) : insertAt (length l) x l = l ++ [x].
Proof. unfold insertAt. by rewrite firstn_all, drop_all. Qed.

Lemma NoDup_fmap_elem {A B} (f : A -> B) (l : list A) x y :
  NoDup (f <$> l) → x ∈ l → y ∈ l → f x = f y → x = y.
Proof.
  intros Hnd [i Hi]%list_elem_of_lookup [j Hj]%list_elem_of_lookup Hf.
  assert (i = j) as ->; [|congruence].
  eapply (NoDup_lookup _ _ _ _ Hnd); rewrite list_lookup_fmap.
  - by rewrite Hi.
  - rewrite Hj. simpl. by rewrite Hf.
Qed.

(** ** The view filter *)

Lemma filteredTodos_elem f todos x :
  x ∈ filteredTodos f todos ↔ x ∈ todos ∧ visible f x = true.
Proof. unfold filteredTodos. by rewrite !list_elem_of_In, filter_In. Qed.

(** ** The reorder handler *)

(** Dropping a task on itself sets nothing. *)
Lemma handleDragEnd_same_id todos a :
  handleDragEnd todos (mkDragEnd a (Some a)) = Some <$> todos.
Proof. unfold handleDragEnd. simpl. by rewrite bool_decide_false by naive_solver. Qed.

(** The handler when the dragged id is in the store: the first task with
    that id is taken out and put in again. *)
Lemma handleDragEnd_found todos event :
  Some (active_id event) ≠ over_id event →
  0 ≤ findIndex (id_is (Some (active_id event))) todos →
  ∃ (k : nat) x,
    findIndex (id_is (Some (active_id event))) todos = Z.of_nat k ∧
    todos !! k = Some x ∧ id x = active_id event ∧
    (∀ j y, (j < k)%nat → todos !! j = Some y → id y ≠ active_id event) ∧
    ∃ j, handleDragEnd todos event = Some <$> insertAt j x (without k todos).
Proof.
  intros Hne Hfound.
  set (i := findIndex (id_is (Some (active_id event))) todos) in *.
  destruct (findIndex_found (id_is (Some (active_id event))) todos (Z.to_nat i))
    as (x & Hx & Hid & Hfirst); [subst i; lia|].
  exists (Z.to_nat i), x. split_and!; [lia|done|..].
  - unfold id_is in Hid. apply bool_decide_eq_true in Hid. congruence.
  - intros j y Hj Hy Heq. specialize (Hfirst j y Hj Hy).
    unfold id_is in Hfirst. apply bool_decide_eq_false in Hfirst. congruence.
  - eexists. unfold handleDragEnd. rewrite bool_decide_true by done.
    fold i. replace i with (Z.of_nat (Z.to_nat i)) at 1 by lia.
    by rewrite (arrayMove_at _ _ x).
Qed.

(** Moving a task of the view leaves the tasks outside the view as they
    were, whatever the target; the store keeps its tasks. *)
Lemma handleDragEnd_moves f todos event :
  Some (active_id event) ≠ over_id event →
  0 ≤ findIndex (id_is (Some (active_id event))) todos →
  (∀ x, x ∈ todos → id x = active_id event → visible f x = true) →
  ∃ todos', handleDragEnd todos event = Some <$> todos' ∧
            todos' ≡ₚ todos ∧
            hiddenTodos f todos' = hiddenTodos f todos.
Proof.
  intros Hne Hfound Hvis.
  destruct (handleDragEnd_found todos event Hne Hfound)
    as (k & x & _ & Hx & Hid & _ & j & ->).
  eexists. split; [done|].
  assert (Hv : negb (visible f x) = false).
  { rewrite Hvis; [done| |done]. apply list_elem_of_lookup. eauto. }
  split.
  - by rewrite insertAt_perm, (without_perm _ _ x).
  - unfold hiddenTodos.
    rewrite filter_insertAt by done. by rewrite (filter_without _ _ _ x).
Qed.

(** No task has the id [undefined]: a [null] target is never resolved. *)
Lemma findIndex_over_null todos : findIndex (id_is None) todos = -1.
Proof. by apply findIndex_none. Qed.

(** With no resolved target the dragged task goes to the end of the store. *)
Lemma handleDragEnd_unresolved todos event :
  0 ≤ findIndex (id_is (Some (active_id event))) todos →
  findIndex (id_is (over_id event)) todos = -1 →
  ∃ (k : nat) x,
    findIndex (id_is (Some (active_id event))) todos = Z.of_nat k ∧
    todos !! k = Some x ∧
    handleDragEnd todos event = Some <$> (without k todos ++ [x]).
Proof.
  intros Hfound Hover.
  set (i := findIndex (id_is (Some (active_id event))) todos) in *.
  destruct (findIndex_found (id_is (Some (active_id event))) todos (Z.to_nat i))
    as (x & Hx & Hid & _); [subst i; lia|].
  exists (Z.to_nat i), x. split_and!; [lia|done|].
  unfold handleDragEnd. rewrite bool_decide_true.
  - fold i. rewrite Hover. replace i with (Z.of_nat (Z.to_nat i)) at 1 by lia.
    rewrite (arrayMove_at _ _ x) by done. simpl.
    pose proof (without_length _ _ _ Hx) as Hlen.
    replace (Z.of_nat (length todos) + -1)
      with (Z.of_nat (length (without (Z.to_nat i) todos))) by lia.
    by rewrite spliceStart_nat, insertAt_end.
  - intros Heq. rewrite <- Heq in Hover.
    pose proof (findIndex_range (id_is (Some (active_id event))) todos). lia.
Qed.

(** C1 (as amended): in a store whose ids are pairwise distinct, dragging a
    task of the filtered view onto a task of the filtered view, under any
    filter mode, gives a store with the same tasks in which the tasks outside
    the view are in the same relative order as before. *)
Theorem reorder_in_view_keeps_hidden_order f todos a o :
  NoDup (id <$> todos) →
  a ∈ filteredTodos f todos →
  o ∈ filteredTodos f todos →
  ∃ todos',
    handleDragEnd todos (mkDragEnd (id a) (Some (id o))) = Some <$> todos' ∧
    todos' ≡ₚ todos ∧
    hiddenTodos f todos' = hiddenTodos f todos.
Proof.
  intros Hnd [Ha Hva]%filteredTodos_elem _.
  destruct (decide (id a = id o)) as [->|Hne].
  { exists todos. by rewrite handleDragEnd_same_id. }
  apply handleDragEnd_moves; simpl.
  - congruence.
  - apply (findIndex_elem _ _ a); [done|]. unfold id_is. by apply bool_decide_eq_true.
  - intros x Hx Hid. by rewrite (NoDup_fmap_elem id todos x a Hnd Hx Ha Hid).
Qed.

Lemma reorder_in_view_keeps_hidden_order_witness :
  ∃ todos',
    handleDragEnd [task "1" "A" false; task "2" "B" true; task "3" "C" false]
      (mkDragEnd (js "3") (Some (js "1"))) = Some <$> todos' ∧
    todos' ≡ₚ [task "1" "A" false; task "2" "B" true; task "3" "C" false] ∧
    hiddenTodos active todos' =
      hiddenTodos active [task "1" "A" false; task "2" "B" true; task "3" "C" false].
Proof.
  apply (reorder_in_view_keeps_hidden_order active
           [task "1" "A" false; task "2" "B" true; task "3" "C" false]
           (task "3" "C" false) (task "1" "A" false)); by_evaluation.
Defined.

(** C1, as stated, fails when two tasks carry one id: the handler looks the
    dragged id up in the whole store and moves the first task that has it,
    here a completed task outside the [active] view, past another completed
    task.  The store is one the component reaches from a first visit when the
    clock reads 1 a second time. *)
Lemma reorder_in_view_duplicate_id :
  let h1 := {| id := js "1"; text := js "H1"; completed := true;
               createdAt := Instant 1; completedAt := Present (Instant 1);
               deadline := Undefined |} in
  let h2 := {| id := js "2"; text := js "H2"; completed := true;
               createdAt := Instant 2; completedAt := Present (Instant 2);
               deadline := Undefined |} in
  let a := {| id := js "1"; text := js "A"; completed := false;
              createdAt := Instant 1; completedAt := Absent;
              deadline := Undefined |} in
  let b := {| id := js "3"; text := js "B"; completed := false;
              createdAt := Instant 3; completedAt := Absent;
              deadline := Undefined |} in
  App.todos <$> App.run noDates
    [ App.TypeNewTodo (js "H1"); App.AddTodo 1 1; App.ToggleTodo (js "1") 1;
      App.TypeNewTodo (js "H2"); App.AddTodo 2 2; App.ToggleTodo (js "2") 2;
      App.TypeNewTodo (js "A"); App.AddTodo 1 1;
      App.TypeNewTodo (js "B"); App.AddTodo 3 3;
      App.SetFilter active ] emptyState
    = Some [h1; h2; a; b] ∧
  a ∈ filteredTodos active [h1; h2; a; b] ∧
  b ∈ filteredTodos active [h1; h2; a; b] ∧
  handleDragEnd [h1; h2; a; b] (mkDragEnd (id a) (Some (id b)))
    = Some <$> [h2; a; b; h1] ∧
  hiddenTodos active [h1; h2; a; b] = [h1; h2] ∧
  hiddenTodos active [h2; a; b; h1] = [h2; h1] ∧
  hiddenTodos active [h2; a; b; h1] ≠ hiddenTodos active [h1; h2; a; b].
Proof. split_and!; try by_evaluation; by vm_compute. Qed.

(** C2: dropping the first of two tasks on no target ([over] is [null])
    moves it to the end of the store; the store is not left as it was. *)
Theorem handleDragEnd_over_null_moves_to_end :
  handleDragEnd [task "1" "A" false; task "2" "B" false]
                (mkDragEnd (js "1") None)
    = [Some (task "2" "B" false); Some (task "1" "A" false)] ∧
  handleDragEnd [task "1" "A" false; task "2" "B" false]
                (mkDragEnd (js "1") None)
    ≠ Some <$> [task "1" "A" false; task "2" "B" false].
Proof. split; [by vm_compute|by_evaluation]. Qed.

(** ** The view filter, continued *)

Lemma filter_Interleave {A} (p : A -> bool) (l : list A) :
  Interleave (List.filter (fun x => negb (p x)) l) (List.filter p l) l.
Proof.
  induction l as [|x l IH]; simpl; [constructor|].
  destruct (p x); simpl; by constructor.
Qed.

Lemma Interleave_length {A} (l1 l2 l : list A) :
  Interleave l1 l2 l → length l = (length l1 + length l2)%nat.
Proof. induction 1; simpl; lia. Qed.

Lemma filter_sublist {A} (p : A -> bool) (l : list A) :
  sublist (List.filter p l) l.
Proof.
  induction l as [|x l IH]; simpl; [constructor|].
  destruct (p x); by constructor.
Qed.

(** C8: the view is a function of the filter mode and the store alone, and a
    sublist of the store (store order, nothing added); under [all] it is the
    store, under [active] it has the tasks that are not completed and only
    those, under [completed] the completed tasks and only those, and the
    store is the [active] and the [completed] view shuffled together, each
    in store order, so every task is in exactly one of the two. *)
Theorem filteredTodos_partition (todos : list Todo) :
  filteredTodos all todos = todos ∧
  (∀ f, sublist (filteredTodos f todos) todos) ∧
  (∀ x, x ∈ filteredTodos active todos ↔ x ∈ todos ∧ completed x = false) ∧
  (∀ x, x ∈ filteredTodos completed_ todos ↔ x ∈ todos ∧ completed x = true) ∧
  Interleave (filteredTodos active todos) (filteredTodos completed_ todos) todos ∧
  length todos =
    (length (filteredTodos active todos) +
     length (filteredTodos completed_ todos))%nat.
Proof.
  split_and!.
  - unfold filteredTodos. simpl. induction todos; simpl; congruence.
  - intros f. apply filter_sublist.
  - intros x. rewrite filteredTodos_elem. simpl. by rewrite negb_true_iff.
  - intros x. by rewrite filteredTodos_elem.
  - apply (filter_Interleave completed).
  - apply Interleave_length, (filter_Interleave completed).
Qed.

(** ** Adding a task *)

Lemma trimStart_nil s : trimStart s = [] ↔ blank s = true.
Proof.
  unfold blank. induction s as [|c s IH]; simpl; [done|].
  destruct (isWhiteSpace c); simpl; [done|]. split; discriminate.
Qed.

Lemma blank_rev s : blank (rev s) = blank s.
Proof.
  unfold blank. induction s as [|c s IH]; simpl; [done|].
  rewrite forallb_app, IH. simpl. rewrite andb_true_r. apply andb_comm.
Qed.

Lemma blank_trimStart s : blank (trimStart s) = blank s.
Proof.
  unfold blank. induction s as [|c s IH]; simpl; [done|].
  destruct (isWhiteSpace c) eqn:Hc; simpl; [done|]. by rewrite Hc.
Qed.

(** [trim] gives the empty string on blank text and on blank text only. *)
Lemma trim_nil s : trim s = [] ↔ blank s = true.
Proof.
  unfold trim, trimEnd.
  rewrite <- (blank_trimStart s), <- (blank_rev (trimStart s)), <- trimStart_nil.
  split; [|by intros ->].
  intros H. apply (f_equal (@rev N)) in H. by rewrite rev_involutive in H.
Qed.

(** C7: [addTodo] on non-blank text appends one task, which is not
    completed, has no [completedAt] property and carries the text as typed;
    on blank text (empty or white space only) it leaves the whole state as
    it was.  Either way it returns a state: no error is raised. *)
Theorem addTodo_spec (Date_parse : jsstring -> Date) (now created : Z)
    (s : App.State) :
  if blank (App.newTodo s) then App.addTodo Date_parse now created s = s
  else ∃ todo,
      App.todos (App.addTodo Date_parse now created s) = App.todos s ++ [todo] ∧
      length (App.todos (App.addTodo Date_parse now created s))
        = S (length (App.todos s)) ∧
      text todo = App.newTodo s ∧
      completed todo = false ∧
      completedAt todo = Absent.
Proof.
  unfold App.addTodo.
  destruct (blank (App.newTodo s)) eqn:Hb.
  - apply trim_nil in Hb. by rewrite bool_decide_true.
  - rewrite bool_decide_false by (rewrite trim_nil; congruence).
    eexists. simpl. split_and!; try done. rewrite length_app. simpl. lia.
Qed.

(** ** Editing a task *)

(** C10: committing an edit puts the text in progress, whatever it is, into
    the tasks with the edited id and changes nothing else: the store keeps
    its length and order, a task with another id is the task it was, and a
    task with the edited id keeps its id, completion, dates and deadline.
    The session is closed. *)
Theorem submitEdit_spec (s : App.State) (target : jsstring) :
  App.editingId s = Some target →
  App.editingId (App.submitEdit s) = None ∧
  length (App.todos (App.submitEdit s)) = length (App.todos s) ∧
  ∀ (i : nat) todo, App.todos s !! i = Some todo →
    ∃ todo', App.todos (App.submitEdit s) !! i = Some todo' ∧
      id todo' = id todo ∧
      completed todo' = completed todo ∧
      createdAt todo' = createdAt todo ∧
      completedAt todo' = completedAt todo ∧
      deadline todo' = deadline todo ∧
      (id todo = target → text todo' = App.editingText s) ∧
      (id todo ≠ target → todo' = todo).
Proof.
  intros Hid. unfold App.submitEdit. rewrite Hid. simpl.
  split_and!; [done|by rewrite length_fmap|].
  intros i todo Hi. rewrite list_lookup_fmap, Hi. simpl.
  eexists; split; [done|]. unfold App.edit1.
  case_bool_decide; simpl; split_and!; done.
Qed.

Lemma submitEdit_spec_witness :
  App.editingId (App.submitEdit
    (editing [task "1" "A" false; task "2" "B" true] "2" "  ")) = None ∧
  length (App.todos (App.submitEdit
    (editing [task "1" "A" false; task "2" "B" true] "2" "  "))) = 2%nat ∧
  ∀ (i : nat) todo,
    [task "1" "A" false; task "2" "B" true] !! i = Some todo →
    ∃ todo', App.todos (App.submitEdit
        (editing [task "1" "A" false; task "2" "B" true] "2" "  ")) !! i
        = Some todo' ∧
      id todo' = id todo ∧
      completed todo' = completed todo ∧
      createdAt todo' = createdAt todo ∧
      completedAt todo' = completedAt todo ∧
      deadline todo' = deadline todo ∧
      (id todo = js "2" → text todo' = js "  ") ∧
      (id todo ≠ js "2" → todo' = todo).
Proof.
  apply (submitEdit_spec
           (editing [task "1" "A" false; task "2" "B" true] "2" "  ") (js "2")).
  reflexivity.
Defined.

(** ** Toggling a task *)

Lemma toggle1_other target now todo :
  id todo ≠ target → App.toggle1 target now todo = todo.
Proof. intros Hne. unfold App.toggle1. by rewrite bool_decide_false. Qed.

(** The two branches of the callback, on the task it is called for. *)
Lemma toggle1_target now todo :
  completed (App.toggle1 (id todo) now todo) = negb (completed todo) ∧
  completedAt (App.toggle1 (id todo) now todo)
    = (if completed todo then Absent else Present (Instant now)) ∧
  id (App.toggle1 (id todo) now todo) = id todo ∧
  text (App.toggle1 (id todo) now todo) = text todo ∧
  createdAt (App.toggle1 (id todo) now todo) = createdAt todo ∧
  deadline (App.toggle1 (id todo) now todo) = deadline todo.
Proof.
  unfold App.toggle1. rewrite bool_decide_true by done.
  by destruct (completed todo).
Qed.

Lemma toggle1_consistent target now todo :
  consistent todo → consistent (App.toggle1 target now todo).
Proof.
  unfold consistent, App.toggle1. intros H.
  case_bool_decide; [|done]. by destruct (completed todo).
Qed.

(** C5 (as amended): toggling a task of the store twice gives back its
    [completed] flag and leaves id, text, [createdAt] and deadline alone.  A
    task that was not completed has no [completedAt] afterwards, and is the
    task it was when it had none before; a task that was completed has
    [completedAt] stamped anew, with the time of the second toggle. *)
Theorem toggle_twice (s : App.State) (i : nat) (todo : Todo) (now1 now2 : Z) :
  App.todos s !! i = Some todo →
  ∃ todo'',
    App.todos (App.toggleTodo (id todo) now2
                 (App.toggleTodo (id todo) now1 s)) !! i = Some todo'' ∧
    completed todo'' = completed todo ∧
    id todo'' = id todo ∧ text todo'' = text todo ∧
    createdAt todo'' = createdAt todo ∧ deadline todo'' = deadline todo ∧
    completedAt todo'' =
      (if completed todo then Present (Instant now2) else Absent) ∧
    (completed todo = false → completedAt todo = Absent → todo'' = todo).
Proof.
  intros Hi. unfold App.toggleTodo. simpl.
  rewrite !list_lookup_fmap, Hi. simpl. eexists; split; [done|].
  destruct todo as [i0 t0 c0 cr0 ca0 d0]; simpl.
  unfold App.toggle1; simpl. rewrite (bool_decide_true (i0 = i0)) by done.
  destruct c0; simpl; rewrite (bool_decide_true (i0 = i0)) by done; simpl;
    split_and!; try done.
  by intros _ ->.
Qed.

Lemma toggle_twice_witness :
  ∃ todo'',
    App.todos (App.toggleTodo (js "1") 10
                 (App.toggleTodo (js "1") 5
                    (App.setTodos [task "1" "Buy milk" false] emptyState)))
      !! 0%nat = Some todo'' ∧
    completed todo'' = false ∧
    id todo'' = js "1" ∧ text todo'' = js "Buy milk" ∧
    createdAt todo'' = Instant 0 ∧ deadline todo'' = Undefined ∧
    completedAt todo'' = Absent ∧
    (false = false → @Absent Date = Absent → todo'' = task "1" "Buy milk" false).
Proof.
  apply (toggle_twice (App.setTodos [task "1" "Buy milk" false] emptyState)
           0 (task "1" "Buy milk" false) 5 10).
  reflexivity.
Defined.

(** C5, as stated, fails for a completed task: the second toggle stamps
    [completedAt] with its own time, here 20, and the time the task had,
    here 1, is lost. *)
Lemma toggle_twice_restamps :
  App.todos (App.toggleTodo (js "1") 20
               (App.toggleTodo (js "1") 10
                  (App.setTodos [task "1" "A" true] emptyState)))
    = [ {| id := js "1"; text := js "A"; completed := true;
           createdAt := Instant 0; completedAt := Present (Instant 20);
           deadline := Undefined |} ] ∧
  completedAt (task "1" "A" true) = Present (Instant 1) ∧
  Present (Instant 20) ≠ completedAt (task "1" "A" true).
Proof. split_and!; [by vm_compute..|by_evaluation]. Qed.

(** ** Runs of user actions *)

Lemma defined_fmap_Some {A} (l : list A) : App.defined (Some <$> l) = Some l.
Proof. induction l as [|x l IH]; csimpl; [done|]. by rewrite IH. Qed.

Lemma defined_Some {A} (l : list (option A)) l' :
  App.defined l = Some l' → l = Some <$> l'.
Proof.
  revert l'. induction l as [|[x|] l IH]; simpl; intros l' H; [by simplify_eq|..].
  - destruct (App.defined l) as [r|]; simplify_eq/=. by rewrite (IH r).
  - done.
Qed.

(** An array that [arrayMove] leaves without [undefined] has the elements
    it had. *)
Lemma arrayMove_defined {A} (l : list A) from to l' :
  arrayMove l from to = Some <$> l' → l' ≡ₚ l.
Proof.
  intros H. set (k := spliceStart (length l) from).
  destruct (l !! k) as [x|] eqn:Hk.
  - rewrite (arrayMove_from _ _ (Z.of_nat k)) in H.
    + rewrite (arrayMove_at _ _ x) in H by done.
      apply (inj (fmap Some)) in H. subst l'.
      by rewrite insertAt_perm, (without_perm _ _ x).
    + rewrite spliceStart_nat; [done|]. apply spliceStart_le.
  - exfalso. apply lookup_ge_None in Hk.
    assert (Hin : None ∈ arrayMove l from to).
    { unfold arrayMove. fold k. rewrite (drop_ge l k) by done. simpl.
      rewrite !elem_of_app, elem_of_cons. auto. }
    rewrite H in Hin. apply list_elem_of_fmap in Hin as (y & Hy & _). done.
Qed.

Lemma handleDragEnd_defined todos event todos' :
  App.defined (handleDragEnd todos event) = Some todos' → todos' ≡ₚ todos.
Proof.
  intros H%defined_Some. unfold handleDragEnd in H.
  case_bool_decide.
  - by apply arrayMove_defined in H.
  - apply (inj (fmap Some)) in H. by subst.
Qed.

Lemma ids_toggle target now todos : ids (App.toggle1 target now <$> todos) = ids todos.
Proof.
  unfold ids. rewrite <- list_fmap_compose. apply list_fmap_ext.
  intros _ todo _. simpl. unfold App.toggle1.
  case_bool_decide; [|done]. by destruct (completed todo).
Qed.

Lemma ids_edit target newText todos : ids (App.edit1 target newText <$> todos) = ids todos.
Proof.
  unfold ids. rewrite <- list_fmap_compose. apply list_fmap_ext.
  intros _ todo _. simpl. unfold App.edit1. by case_bool_decide.
Qed.

(** What an action does to the store: nothing, one task more, the callback
    of toggle or edit on every task, some tasks fewer, or another order. *)
Lemma dispatch_todos Date_parse a s s' :
  App.dispatch Date_parse a s = Some s' →
  App.todos s' = App.todos s ∨
  (∃ now created todo,
      a = App.AddTodo now created ∧ blank (App.newTodo s) = false ∧
      App.todos s' = App.todos s ++ [todo] ∧
      id todo = Number_toString now ∧ consistent todo) ∨
  (∃ target now, App.todos s' = App.toggle1 target now <$> App.todos s) ∨
  (∃ target newText, App.todos s' = App.edit1 target newText <$> App.todos s) ∨
  (∃ p, App.todos s' = List.filter p (App.todos s)) ∨
  (∃ event, a = App.DragEnd event ∧ App.todos s' ≡ₚ App.todos s).
Proof.
  destruct a; simpl; intros H; simplify_eq; try by left.
  - unfold App.addTodo.
    destruct (blank (App.newTodo s)) eqn:Hb.
    + left. apply trim_nil in Hb. by rewrite bool_decide_true.
    + right; left. rewrite bool_decide_false by (rewrite trim_nil; congruence).
      eexists now, created, _. split_and!; done.
  - right; right; left. by eexists _, _.
  - do 4 right; left. by eexists.
  - unfold App.submitEdit. destruct (App.editingId s); [|by left].
    do 3 right; left. by eexists _, _.
  - destruct (App.defined _) as [l|] eqn:Hl; simplify_eq.
    do 5 right. eexists; split; [done|]. by apply handleDragEnd_defined in Hl.
Qed.

Lemma edit1_consistent target newText todo :
  consistent todo → consistent (App.edit1 target newText todo).
Proof. unfold consistent, App.edit1. by case_bool_decide. Qed.

Lemma dispatch_consistent Date_parse a s s' :
  Forall consistent (App.todos s) →
  App.dispatch Date_parse a s = Some s' →
  Forall consistent (App.todos s').
Proof.
  intros Hinv Hstep.
  destruct (dispatch_todos _ _ _ _ Hstep)
    as [->|[(?&?&?&_&_&->&_&?)|[(?&?&->)|[(?&?&->)|[(?&->)|(?&_&->)]]]]]; try done.
  - apply Forall_app; split; [done|by constructor].
  - apply Forall_fmap. eapply Forall_impl; [done|].
    intros. by apply toggle1_consistent.
  - apply Forall_fmap. eapply Forall_impl; [done|].
    intros. by apply edit1_consistent.
  - rewrite Forall_forall in *. intros y Hy%list_elem_of_In.
    apply filter_In in Hy as [Hy _]. apply Hinv. by apply list_elem_of_In.
Qed.

(** C6: along every run of user actions (add, toggle, edit, delete,
    reorder, and the typing and filtering between them) from a store in
    which [completedAt] holds a value exactly for the completed tasks, every
    store has that property; and in every such store, toggling a task that is
    not completed sets [completed] and stamps [completedAt] with the time of
    the toggle, while toggling a completed task clears [completed] and
    leaves the task without a [completedAt] property. *)
Theorem completedAt_iff_completed (Date_parse : jsstring -> Date)
    (acts : list App.Action) (s s' : App.State) :
  Forall consistent (App.todos s) →
  App.run Date_parse acts s = Some s' →
  Forall consistent (App.todos s') ∧
  ∀ (now : Z) (i : nat) todo, App.todos s' !! i = Some todo →
    ∃ todo', App.todos (App.toggleTodo (id todo) now s') !! i = Some todo' ∧
      completed todo' = negb (completed todo) ∧
      completedAt todo' =
        (if completed todo then Absent else Present (Instant now)).
Proof.
  intros Hinv Hrun. split.
  - revert s Hinv Hrun. induction acts as [|a acts IH]; simpl; intros s Hinv Hrun.
    + by simplify_eq.
    + destruct (App.dispatch Date_parse a s) as [s1|] eqn:Hstep; [|done].
      eapply IH; [|done]. by eapply dispatch_consistent.
  - intros now i todo Hi. unfold App.toggleTodo. simpl.
    rewrite list_lookup_fmap, Hi. simpl. eexists; split; [done|].
    by destruct (toggle1_target now todo) as (-> & -> & _).
Qed.

Lemma completedAt_iff_completed_witness :
  let s' := App.mkState
      [ {| id := js "2"; text := js "Walk"; completed := false;
           createdAt := Instant 21; completedAt := Absent;
           deadline := Undefined |};
        {| id := js "1"; text := js "Buy oat milk"; completed := true;
           createdAt := Instant 11; completedAt := Present (Instant 30);
           deadline := Undefined |} ]
      [] [] None [] active None in
  Forall consistent (App.todos s') ∧
  ∀ (now : Z) (i : nat) todo, App.todos s' !! i = Some todo →
    ∃ todo', App.todos (App.toggleTodo (id todo) now s') !! i = Some todo' ∧
      completed todo' = negb (completed todo) ∧
      completedAt todo' =
        (if completed todo then Absent else Present (Instant now)).
Proof.
  apply (completedAt_iff_completed noDates
    [ App.TypeNewTodo (js "Buy milk"); App.AddTodo 1 11;
      App.TypeNewTodo (js "Walk"); App.AddTodo 2 21;
      App.TypeNewTodo (js "Gone"); App.AddTodo 3 31; App.HighlightTimeout;
      App.ToggleTodo (js "1") 30;
      App.StartEditing (task "1" "Buy milk" false);
      App.TypeEditingText (js "Buy oat milk"); App.SubmitEdit;
      App.DeleteTodo (js "3");
      App.DragEnd (mkDragEnd (js "2") (Some (js "1")));
      App.SetFilter active ]
    emptyState).
  - constructor.
  - reflexivity.
Defined.

Lemma dispatch_ids Date_parse a s s' :
  NoDup (ids (App.todos s)) →
  (∀ now created, a = App.AddTodo now created →
     blank (App.newTodo s) = true ∨ Number_toString now ∉ ids (App.todos s)) →
  App.dispatch Date_parse a s = Some s' →
  NoDup (ids (App.todos s')).
Proof.
  intros Hnd Hfresh Hstep.
  destruct (dispatch_todos _ _ _ _ Hstep)
    as [->|[(now&created&todo&->&Hb&->&Hid&_)
       |[(?&?&->)|[(?&?&->)|[(p&->)|(?&_&Hp)]]]]]; try done.
  - destruct (Hfresh now created eq_refl) as [?|Hnew]; [congruence|].
    unfold ids in *. rewrite fmap_app. simpl. rewrite Hid.
    apply NoDup_app. split_and!; [done| |apply NoDup_singleton].
    intros x Hx ->%list_elem_of_singleton. done.
  - by rewrite ids_toggle.
  - by rewrite ids_edit.
  - eapply sublist_NoDup; [done|]. apply fmap_sublist, filter_sublist.
  - unfold ids. by rewrite Hp.
Qed.

(** C4 (as amended): ids stay pairwise distinct along every run of user
    actions in which each [addTodo] that adds a task reads from the clock a
    millisecond count whose decimal string is not the id of a task then in
    the store; toggle, edit, delete and reorder need no such condition.  The
    id [addTodo] assigns is that decimal string, nothing else. *)
Theorem ids_stay_distinct (Date_parse : jsstring -> Date)
    (acts : list App.Action) (s s' : App.State) :
  NoDup (ids (App.todos s)) →
  adds_fresh Date_parse acts s →
  App.run Date_parse acts s = Some s' →
  NoDup (ids (App.todos s')).
Proof.
  revert s. induction acts as [|a acts IH]; simpl; intros s Hnd Hfresh Hrun.
  - by simplify_eq.
  - destruct Hfresh as [Ha Hrest].
    destruct (App.dispatch Date_parse a s) as [s1|] eqn:Hstep; [|done].
    eapply IH; [|done..].
    eapply dispatch_ids; [done| |done]. by intros now created ->.
Qed.

Lemma ids_stay_distinct_witness :
  NoDup (ids
    [ {| id := js "2"; text := js "Walk"; completed := false;
         createdAt := Instant 21; completedAt := Absent;
         deadline := Undefined |};
      {| id := js "1"; text := js "Buy milk"; completed := true;
         createdAt := Instant 11; completedAt := Present (Instant 30);
         deadline := Undefined |} ]).
Proof.
  apply (ids_stay_distinct noDates
    [ App.TypeNewTodo (js "Buy milk"); App.AddTodo 1 11;
      App.TypeNewTodo (js "Walk"); App.AddTodo 2 21;
      App.TypeNewTodo (js "Gone"); App.AddTodo 3 31; App.HighlightTimeout;
      App.ToggleTodo (js "1") 30;
      App.DeleteTodo (js "3");
      App.DragEnd (mkDragEnd (js "2") (Some (js "1"))) ]
    emptyState
    (App.mkState
      [ {| id := js "2"; text := js "Walk"; completed := false;
           createdAt := Instant 21; completedAt := Absent;
           deadline := Undefined |};
        {| id := js "1"; text := js "Buy milk"; completed := true;
           createdAt := Instant 11; completedAt := Present (Instant 30);
           deadline := Undefined |} ]
      [] [] None [] all None)).
  - constructor.
  - simpl. split_and!; try exact I; right; by_evaluation.
  - reflexivity.
Defined.

(** C4, as stated, fails: two tasks added at one reading of the clock get
    one id, and so does a task added at a reading that is the id of a task
    already there. *)
Lemma addTodo_reuses_id :
  App.todos <$> App.run noDates
    [ App.TypeNewTodo (js "A"); App.AddTodo 5 5;
      App.TypeNewTodo (js "B"); App.AddTodo 5 5 ] emptyState
  = Some [ {| id := js "5"; text := js "A"; completed := false;
              createdAt := Instant 5; completedAt := Absent;
              deadline := Undefined |};
           {| id := js "5"; text := js "B"; completed := false;
              createdAt := Instant 5; completedAt := Absent;
              deadline := Undefined |} ] ∧
  NoDup (ids (App.todos emptyState)) ∧
  ¬ NoDup (ids [ {| id := js "5"; text := js "A"; completed := false;
                    createdAt := Instant 5; completedAt := Absent;
                    deadline := Undefined |};
                 {| id := js "5"; text := js "B"; completed := false;
                    createdAt := Instant 5; completedAt := Absent;
                    deadline := Undefined |} ]).
Proof. split_and!; [by vm_compute|constructor|by_evaluation]. Qed.

(** ** Persistence *)

Section PersistenceFacts.

Variable toISOString : Z -> jsstring.
Variable Date_parse : jsstring -> Date.
Variable JSON_stringify : list App.StoredTodo -> jsstring.
Variable JSON_parse : jsstring -> option App.JSONValue.

Local Abbreviation parseTodos := (App.parseTodos Date_parse JSON_parse).
Local Abbreviation load := (App.load Date_parse JSON_parse).
Local Abbreviation saveTodos := (App.saveTodos toISOString JSON_stringify).
Local Abbreviation revive := (App.revive Date_parse).
Local Abbreviation toStored := (App.toStored toISOString).

(** When the [try] block throws, the store starts empty; when it returns,
    the store is what it returned. *)
Lemma load_try stored :
  load (Some stored) =
    if truthy stored then default [] (parseTodos stored) else [].
Proof.
  unfold App.load, App.mount, App.loadOnMount, App.initialTodos.
  destruct (truthy stored); [|done]. by destruct (parseTodos stored).
Qed.

Lemma mount_try_throws stored :
  parseTodos stored = None →
  App.mount Date_parse JSON_parse (Some stored) = emptyState.
Proof.
  intros H. unfold App.mount, App.loadOnMount, App.initialTodos. rewrite H.
  by destruct (truthy stored).
Qed.

(** The ways the [try] block throws. *)
Lemma parseTodos_throws stored :
  parseTodos stored = None ↔
  JSON_parse stored = None ∨ JSON_parse stored = Some App.JOther ∨
  ∃ elements, JSON_parse stored = Some (App.JArray elements) ∧ None ∈ elements.
Proof.
  unfold App.parseTodos.
  destruct (JSON_parse stored) as [[|elements]|]; [naive_solver| |naive_solver].
  rewrite mapM_None, Exists_exists. split.
  - intros ([e|] & He & Hnone); [done|]. naive_solver.
  - intros [|[|(? & [= <-] & Hin)]]; [done..|]. by exists None.
Qed.

(** Reading back what was written, given that [JSON.parse] returns the
    array that [JSON.stringify] wrote, as a text that is not empty. *)
Lemma load_save todos :
  JSON_parse (saveTodos todos) = Some (App.JArray (Some <$> (toStored <$> todos))) →
  truthy (saveTodos todos) = true →
  load (Some (saveTodos todos)) = (fun todo => revive (toStored todo)) <$> todos.
Proof.
  intros Hparse Htext. rewrite load_try, Htext.
  unfold App.parseTodos. rewrite Hparse.
  assert (H : mapM (fun e => revive <$> e) (Some <$> (toStored <$> todos))
              = Some ((fun todo => revive (toStored todo)) <$> todos));
    [|by rewrite H].
  apply mapM_Some. rewrite <- !list_fmap_compose.
  apply Forall2_fmap_l, Forall2_fmap_r, Forall_Forall2_diag.
  by apply Forall_forall.
Qed.

(** One task written and read back: equal up to the representation of its
    dates, when the dates are valid and an ISO string is a non-empty string
    that parses to its instant. *)
Lemma revive_toStored todo :
  (∀ t, Date_parse (toISOString t) = Instant t) →
  (∀ t, truthy (toISOString t) = true) →
  valid_dates todo →
  same_task Date_parse todo (revive (toStored todo)).
Proof.
  intros Hiso Hne (Hc & Hca & Hd).
  destruct todo as [i t c cr ca d]; simpl in *.
  unfold same_task; simpl. split_and!; try done.
  - destruct cr; [simpl; by rewrite Hiso|done].
  - destruct ca as [| |[ms|]]; simpl; try done. by rewrite Hne, Hiso.
  - destruct d as [| |[[ms|]|j]]; simpl; [done..|by rewrite Hiso|done|done].
Qed.

(** A task written and read back has [completedAt] exactly when it is
    completed, if it had before. *)
Lemma revive_toStored_consistent todo :
  (∀ t, truthy (toISOString t) = true) →
  completedAt todo ≠ Present InvalidDate →
  consistent todo → consistent (revive (toStored todo)).
Proof.
  intros Hne Hvalid. unfold consistent.
  destruct todo as [i t c cr ca d]; simpl in *. intros ->.
  destruct ca as [| |[ms|]]; simpl; try done. by rewrite Hne.
Qed.

(** The round trip of a well-formed collection, up to the representation of
    dates. *)
Lemma load_save_same todos :
  (∀ t, Date_parse (toISOString t) = Instant t) →
  (∀ t, truthy (toISOString t) = true) →
  JSON_parse (saveTodos todos) = Some (App.JArray (Some <$> (toStored <$> todos))) →
  truthy (saveTodos todos) = true →
  Forall valid_dates todos →
  Forall2 (same_task Date_parse) todos (load (Some (saveTodos todos))).
Proof.
  intros Hiso Hne Hparse Htext Hvalid. rewrite load_save by done.
  apply Forall2_fmap_r, Forall_Forall2_diag.
  eapply Forall_impl; [done|]. intros todo. by apply revive_toStored.
Qed.

(** C3: a task saved with a [Date] object for its deadline is read back
    with the ISO string that [JSON.stringify] wrote in its place, whereas
    [createdAt] is read back as a [Date] object; the loader converts
    [createdAt] and [completedAt] and leaves [deadline] to the spread. *)
Theorem load_leaves_deadline_a_string (todos : list Todo) (i : nat)
    (todo : Todo) (d : Z) :
  JSON_parse (saveTodos todos) = Some (App.JArray (Some <$> (toStored <$> todos))) →
  truthy (saveTodos todos) = true →
  todos !! i = Some todo →
  deadline todo = Present (DateObj (Instant d)) →
  ∃ todo', load (Some (saveTodos todos)) !! i = Some todo' ∧
    deadline todo' = Present (Raw (JString (toISOString d))) ∧
    (∀ d', deadline todo' ≠ Present (DateObj d')) ∧
    createdAt todo' = App.newDate Date_parse (App.toJSON toISOString (createdAt todo)).
Proof.
  intros Hparse Htext Hi Hd. rewrite load_save by done.
  rewrite list_lookup_fmap, Hi. eexists; split; [done|].
  destruct todo as [i0 t0 c0 cr0 ca0 d0]; simpl in *. subst d0.
  split_and!; done.
Qed.

(** C9: when the stored text is not JSON, the collection the component
    starts with is empty and the state is that of a first visit; the same
    holds when the text is JSON for something that is no array, and when it
    is an array of which some element is [null], whatever the other elements
    are.  [load] returns in each case: the exception does not leave it. *)
Theorem load_malformed_is_empty (stored : jsstring) :
  JSON_parse stored = None ∨ JSON_parse stored = Some App.JOther ∨
  (∃ elements, JSON_parse stored = Some (App.JArray elements) ∧ None ∈ elements) →
  load (Some stored) = [] ∧
  App.initialTodos Date_parse JSON_parse (Some stored) = [] ∧
  App.mount Date_parse JSON_parse (Some stored) = emptyState.
Proof.
  intros H%parseTodos_throws. split_and!.
  - rewrite load_try, H. by destruct (truthy stored).
  - unfold App.initialTodos. rewrite H. by destruct (truthy stored).
  - by apply mount_try_throws.
Qed.

End PersistenceFacts.

Lemma load_leaves_deadline_a_string_witness :
  ∃ todo',
    App.load sample_Date_parse sample_parse
      (Some (App.saveTodos sample_toISOString sample_stringify [dueTask]))
      !! 0%nat = Some todo' ∧
    deadline todo' = Present (Raw (JString (sample_toISOString 86400000))) ∧
    (∀ d', deadline todo' ≠ Present (DateObj d')) ∧
    createdAt todo' =
      App.newDate sample_Date_parse
        (App.toJSON sample_toISOString (createdAt dueTask)).
Proof.
  apply (load_leaves_deadline_a_string sample_toISOString sample_Date_parse
           sample_stringify sample_parse [dueTask] 0 dueTask 86400000);
    reflexivity.
Defined.

Lemma load_malformed_is_empty_witness :
  App.load sample_Date_parse sample_parse (Some (js "{oops")) = [] ∧
  App.initialTodos sample_Date_parse sample_parse (Some (js "{oops")) = [] ∧
  App.mount sample_Date_parse sample_parse (Some (js "{oops")) = emptyState.
Proof.
  apply (load_malformed_is_empty sample_Date_parse sample_parse (js "{oops")).
  left. reflexivity.
Defined.

(** ** The scenarios of the specification *)

(** Add "Buy milk", toggle it, toggle it again, delete it. *)
Example scenario_buy_milk :
  App.todos <$> App.run noDates
    [ App.TypeNewTodo (js "Buy milk"); App.AddTodo 7 7 ] emptyState
  = Some [ {| id := js "7"; text := js "Buy milk"; completed := false;
              createdAt := Instant 7; completedAt := Absent;
              deadline := Undefined |} ] ∧
  App.todos <$> App.run noDates
    [ App.TypeNewTodo (js "Buy milk"); App.AddTodo 7 7;
      App.ToggleTodo (js "7") 8 ] emptyState
  = Some [ {| id := js "7"; text := js "Buy milk"; completed := true;
              createdAt := Instant 7; completedAt := Present (Instant 8);
              deadline := Undefined |} ] ∧
  App.todos <$> App.run noDates
    [ App.TypeNewTodo (js "Buy milk"); App.AddTodo 7 7;
      App.ToggleTodo (js "7") 8; App.ToggleTodo (js "7") 9 ] emptyState
  = Some [ {| id := js "7"; text := js "Buy milk"; completed := false;
              createdAt := Instant 7; completedAt := Absent;
              deadline := Undefined |} ] ∧
  App.todos <$> App.run noDates
    [ App.TypeNewTodo (js "Buy milk"); App.AddTodo 7 7;
      App.ToggleTodo (js "7") 8; App.ToggleTodo (js "7") 9;
      App.DeleteTodo (js "7") ] emptyState
  = Some [].
Proof. split_and!; reflexivity. Qed.

(** Blank text adds nothing. *)
Example scenario_blank :
  App.run noDates [ App.AddTodo 7 7 ] emptyState = Some emptyState ∧
  App.run noDates [ App.TypeNewTodo (js "   "); App.AddTodo 7 7 ] emptyState
    = Some (App.setNewTodo (js "   ") emptyState).
Proof. split; reflexivity. Qed.

(** Add A, B, C and drag C onto A; then, with B completed and the [active]
    filter on, drag A onto C. *)
Example scenario_drag :
  handleDragEnd [task "1" "A" false; task "2" "B" false; task "3" "C" false]
                (mkDragEnd (js "3") (Some (js "1")))
    = Some <$> [task "3" "C" false; task "1" "A" false; task "2" "B" false] ∧
  filteredTodos active
    [task "3" "C" false; task "1" "A" false; task "2" "B" true]
    = [task "3" "C" false; task "1" "A" false] ∧
  handleDragEnd [task "3" "C" false; task "1" "A" false; task "2" "B" true]
                (mkDragEnd (js "1") (Some (js "3")))
    = Some <$> [task "1" "A" false; task "3" "C" false; task "2" "B" true].
Proof. split_and!; reflexivity. Qed.

(** A deadline picked in the date input is a [Date] object in the store and
    a string after a reload. *)
Example scenario_deadline :
  App.todos <$> App.run sample_Date_parse
    [ App.TypeNewTodo (js "A"); App.PickDeadline (js "1970-01-02");
      App.AddTodo 1 0 ] emptyState
  = Some [dueTask] ∧
  deadline <$> App.load sample_Date_parse sample_parse
      (Some (App.saveTodos sample_toISOString sample_stringify [dueTask]))
  = [Present (Raw (JString (js "1970-01-02T00:00:00.000Z")))].
Proof. split; reflexivity. Qed.

(** * Further properties of the component *)

(** ** Reordering *)

Lemma lookup_without {A} (l : list A) (k i : nat) :
  (k ≤ length l)%nat →
  without k l !! i = if (i <? k)%nat then l !! i else l !! S i.
Proof.
  intros Hk. unfold without.
  destruct (Nat.ltb_spec i k).
  - rewrite lookup_app_l by (rewrite length_take; lia). by apply lookup_take_lt.
  - rewrite lookup_app_r by (rewrite length_take; lia).
    rewrite length_take, lookup_drop. f_equal. lia.
Qed.

Lemma lookup_insertAt {A} (l : list A) (x : A) (j i : nat) :
  (j ≤ length l)%nat →
  insertAt j x l !! i =
    if (i <? j)%nat then l !! i
    else if (i =? j)%nat then Some x else l !! (i - 1)%nat.
Proof.
  intros Hj. unfold insertAt.
  destruct (Nat.ltb_spec i j).
  - rewrite lookup_app_l by (rewrite length_take; lia). by apply lookup_take_lt.
  - rewrite lookup_app_r by (rewrite length_take; lia).
    rewrite length_take. replace (i - j `min` length l)%nat with (i - j)%nat by lia.
    destruct (Nat.eqb_spec i j) as [->|Hne].
    + by rewrite Nat.sub_diag.
    + destruct (i - j)%nat as [|n] eqn:Hn; [lia|]. simpl.
      rewrite lookup_drop. f_equal. lia.
Qed.

Lemma insertAt_length {A} (l : list A) (x : A) (j : nat) :
  length (insertAt j x l) = S (length l).
Proof.
  unfold insertAt. rewrite length_app. simpl.
  rewrite length_take, length_drop. lia.
Qed.

(** The handler on a store that is not empty, whatever the event: the dragged
    id is found, or the source index is [-1] and the last task is taken. *)
Lemma handleDragEnd_moved todos event :
  todos ≠ [] →
  Some (active_id event) ≠ over_id event →
  ∃ (k j : nat) x,
    todos !! k = Some x ∧
    (findIndex (id_is (Some (active_id event))) todos = Z.of_nat k ∨
     findIndex (id_is (Some (active_id event))) todos = -1 ∧ S k = length todos) ∧
    (j < length todos)%nat ∧
    (findIndex (id_is (over_id event)) todos = Z.of_nat j ∨
     findIndex (id_is (over_id event)) todos = -1 ∧ S j = length todos) ∧
    handleDragEnd todos event = Some <$> insertAt j x (without k todos).
Proof.
  intros Hne Hguard.
  assert (Htarget : ∃ j : nat, (j < length todos)%nat ∧
    (findIndex (id_is (over_id event)) todos = Z.of_nat j ∨
     findIndex (id_is (over_id event)) todos = -1 ∧ S j = length todos) ∧
    spliceStart (length todos - 1)
      (if findIndex (id_is (over_id event)) todos <? 0
       then Z.of_nat (length todos) + findIndex (id_is (over_id event)) todos
       else findIndex (id_is (over_id event)) todos) = j).
  { assert (0 < length todos)%nat by (destruct todos; [done|simpl; lia]).
    destruct (findIndex_range (id_is (over_id event)) todos) as [->|Hj].
    - exists (length todos - 1)%nat. split_and!; [lia|right; split; [done|lia]|].
      unfold spliceStart. simpl. destruct (Z.ltb_spec (Z.of_nat (length todos) + -1) 0); lia.
    - exists (Z.to_nat (findIndex (id_is (over_id event)) todos)).
      split_and!; [lia|left; lia|].
      destruct (Z.ltb_spec (findIndex (id_is (over_id event)) todos) 0); [lia|].
      unfold spliceStart.
      destruct (Z.ltb_spec (findIndex (id_is (over_id event)) todos) 0); lia. }
  destruct Htarget as (j & Hj & Hover & Hstart).
  unfold handleDragEnd. rewrite bool_decide_true by done.
  destruct (findIndex_range (id_is (Some (active_id event))) todos) as [Hnone|Hk].
  - destruct (exists_last Hne) as (l & x & ->).
    rewrite length_app in *. simpl in *.
    exists (length l), j, x. split_and!.
    + rewrite lookup_app_r by lia. by rewrite Nat.sub_diag.
    + right. split; [done|lia].
    + lia.
    + done.
    + rewrite Hnone, arrayMove_last.
      replace (length l + 1 - 1)%nat with (length l) in Hstart by lia.
      rewrite length_app. simpl. rewrite Hstart.
      unfold without. rewrite take_app_length.
      rewrite drop_ge by (rewrite length_app; simpl; lia). by rewrite app_nil_r.
  - destruct (findIndex_found (id_is (Some (active_id event))) todos
                (Z.to_nat (findIndex (id_is (Some (active_id event))) todos)))
      as (x & Hx & _); [lia|].
    eexists _, j, x. split_and!; [done|left; lia|done..|].
    replace (findIndex (id_is (Some (active_id event))) todos)
      with (Z.of_nat (Z.to_nat (findIndex (id_is (Some (active_id event))) todos)))
      at 1 by lia.
    rewrite (arrayMove_at _ _ x) by done.
    pose proof (without_length _ _ _ Hx) as Hlen.
    replace (length (without _ todos)) with (length todos - 1)%nat by lia.
    by rewrite Hstart.
Qed.

(** X1: whatever the drag event, a store that is not empty comes out of
    [handleDragEnd] with the tasks it had: the array that is set holds no
    [undefined], and it is a permutation of the store. *)
Theorem handleDragEnd_permutes (todos : list Todo) (event : DragEndEvent) :
  todos ≠ [] →
  ∃ todos', handleDragEnd todos event = Some <$> todos' ∧
            todos' ≡ₚ todos ∧ length todos' = length todos.
Proof.
  intros Hne.
  destruct (decide (Some (active_id event) = over_id event)) as [Heq|Hguard].
  - exists todos. unfold handleDragEnd.
    by rewrite bool_decide_false by (by intros []).
  - destruct (handleDragEnd_moved todos event Hne Hguard)
      as (k & j & x & Hx & _ & _ & _ & ->).
    eexists; split; [done|].
    assert (Hp : insertAt j x (without k todos) ≡ₚ todos)
      by (by rewrite insertAt_perm, (without_perm _ _ x)).
    split; [done|]. by rewrite Hp.
Qed.

Lemma handleDragEnd_permutes_witness :
  ∃ todos',
    handleDragEnd [task "1" "A" false; task "2" "B" true]
      (mkDragEnd (js "9") (Some (js "1"))) = Some <$> todos' ∧
    todos' ≡ₚ [task "1" "A" false; task "2" "B" true] ∧
    length todos' = length [task "1" "A" false; task "2" "B" true].
Proof.
  apply (handleDragEnd_permutes [task "1" "A" false; task "2" "B" true]
           (mkDragEnd (js "9") (Some (js "1")))).
  discriminate.
Defined.

(** X2: when the dragged id and the target id are found at two places of the
    store, the dragged task comes to the place of the target; the tasks
    between the two places move by one place towards the place the dragged
    task left, and every other task keeps its place. *)
Theorem handleDragEnd_lands_on_target (todos : list Todo)
    (event : DragEndEvent) (k j : nat) :
  findIndex (id_is (Some (active_id event))) todos = Z.of_nat k →
  findIndex (id_is (over_id event)) todos = Z.of_nat j →
  k ≠ j →
  ∃ todos' x,
    handleDragEnd todos event = Some <$> todos' ∧
    todos !! k = Some x ∧
    todos' !! j = Some x ∧
    length todos' = length todos ∧
    (∀ i, (i < k ∧ i < j ∨ k < i ∧ j < i)%nat → todos' !! i = todos !! i) ∧
    (∀ i, (k ≤ i < j)%nat → todos' !! i = todos !! S i) ∧
    (∀ i, (j < i ≤ k)%nat → todos' !! i = todos !! (i - 1)%nat).
Proof.
  intros Hk Hj Hkj.
  destruct (findIndex_found _ _ _ Hk) as (x & Hx & Hidx & _).
  destruct (findIndex_found _ _ _ Hj) as (y & Hy & Hidy & _).
  pose proof (lookup_lt_Some _ _ _ Hx) as Hklt.
  pose proof (lookup_lt_Some _ _ _ Hy) as Hjlt.
  pose proof (without_length _ _ _ Hx) as Hlen.
  assert (Hguard : Some (active_id event) ≠ over_id event).
  { intros Heq. rewrite <- Heq in Hj. lia. }
  exists (insertAt j x (without k todos)), x.
  split_and!; [|done|..].
  - unfold handleDragEnd. rewrite bool_decide_true by done.
    rewrite Hk, Hj, (arrayMove_at _ _ x) by done.
    destruct (Z.ltb_spec (Z.of_nat j) 0); [lia|].
    by rewrite spliceStart_nat by lia.
  - rewrite lookup_insertAt by lia.
    destruct (Nat.ltb_spec j j); [lia|]. by rewrite Nat.eqb_refl.
  - rewrite insertAt_length. lia.
  - intros i Hi. rewrite lookup_insertAt by lia.
    destruct (Nat.ltb_spec i j).
    + rewrite lookup_without by lia. destruct (Nat.ltb_spec i k); [done|lia].
    + destruct (Nat.eqb_spec i j); [lia|].
      rewrite lookup_without by lia.
      destruct (Nat.ltb_spec (i - 1) k); [lia|]. f_equal. lia.
  - intros i Hi. rewrite lookup_insertAt by lia.
    destruct (Nat.ltb_spec i j); [|lia].
    rewrite lookup_without by lia. destruct (Nat.ltb_spec i k); [lia|done].
  - intros i Hi. rewrite lookup_insertAt by lia.
    destruct (Nat.ltb_spec i j); [lia|].
    destruct (Nat.eqb_spec i j); [lia|].
    rewrite lookup_without by lia. destruct (Nat.ltb_spec (i - 1) k); [done|lia].
Qed.

Lemma handleDragEnd_lands_on_target_witness :
  ∃ todos' x,
    handleDragEnd
      [task "1" "A" false; task "2" "B" false; task "3" "C" false;
       task "4" "D" false]
      (mkDragEnd (js "1") (Some (js "3"))) = Some <$> todos' ∧
    [task "1" "A" false; task "2" "B" false; task "3" "C" false;
     task "4" "D" false] !! 0%nat = Some x ∧
    todos' !! 2%nat = Some x ∧
    length todos' = 4%nat ∧
    (∀ i, (i < 0 ∧ i < 2 ∨ 0 < i ∧ 2 < i)%nat →
       todos' !! i =
       [task "1" "A" false; task "2" "B" false; task "3" "C" false;
        task "4" "D" false] !! i) ∧
    (∀ i, (0 ≤ i < 2)%nat →
       todos' !! i =
       [task "1" "A" false; task "2" "B" false; task "3" "C" false;
        task "4" "D" false] !! S i) ∧
    (∀ i, (2 < i ≤ 0)%nat →
       todos' !! i =
       [task "1" "A" false; task "2" "B" false; task "3" "C" false;
        task "4" "D" false] !! (i - 1)%nat).
Proof.
  apply (handleDragEnd_lands_on_target
           [task "1" "A" false; task "2" "B" false; task "3" "C" false;
            task "4" "D" false]
           (mkDragEnd (js "1") (Some (js "3"))) 0 2).
  - reflexivity.
  - reflexivity.
  - lia.
Defined.

(** X3: when the dragged id is in the store and the target is not resolved
    ([over] is [null], or its id is the id of no task), the first task with
    the dragged id goes to the end of the store and the others keep their
    order. *)
Theorem handleDragEnd_unresolved_target (todos : list Todo)
    (event : DragEndEvent) (k : nat) :
  findIndex (id_is (Some (active_id event))) todos = Z.of_nat k →
  findIndex (id_is (over_id event)) todos = -1 →
  ∃ x, todos !! k = Some x ∧
       handleDragEnd todos event = Some <$> (without k todos ++ [x]).
Proof.
  intros Hk Hover.
  destruct (handleDragEnd_unresolved todos event) as (k' & x & Hk' & Hx & ->);
    [lia|done|].
  assert (k' = k) as -> by lia. by exists x.
Qed.

Lemma handleDragEnd_unresolved_target_witness :
  ∃ x,
    [task "1" "A" false; task "2" "B" false; task "3" "C" false] !! 1%nat
      = Some x ∧
    handleDragEnd [task "1" "A" false; task "2" "B" false; task "3" "C" false]
      (mkDragEnd (js "2") None)
    = Some <$>
        (without 1 [task "1" "A" false; task "2" "B" false; task "3" "C" false]
         ++ [x]).
Proof.
  apply (handleDragEnd_unresolved_target
           [task "1" "A" false; task "2" "B" false; task "3" "C" false]
           (mkDragEnd (js "2") None) 1); reflexivity.
Defined.

(** X4: when no task has the dragged id, the handler takes the last task of
    the store instead and puts it at the place of the target. *)
Theorem handleDragEnd_stale_id (l : list Todo) (x : Todo)
    (event : DragEndEvent) (j : nat) :
  findIndex (id_is (Some (active_id event))) (l ++ [x]) = -1 →
  findIndex (id_is (over_id event)) (l ++ [x]) = Z.of_nat j →
  handleDragEnd (l ++ [x]) event = Some <$> insertAt j x l.
Proof.
  intros Hnone Hj.
  assert (Hguard : Some (active_id event) ≠ over_id event).
  { intros Heq. rewrite <- Heq in Hj. lia. }
  pose proof (findIndex_range (id_is (over_id event)) (l ++ [x])) as Hr.
  rewrite length_app in Hr. simpl in Hr.
  unfold handleDragEnd. rewrite bool_decide_true by done.
  rewrite Hnone, Hj, arrayMove_last.
  destruct (Z.ltb_spec (Z.of_nat j) 0); [lia|].
  by rewrite spliceStart_nat by lia.
Qed.

Lemma handleDragEnd_stale_id_witness :
  handleDragEnd ([task "1" "A" false; task "2" "B" false] ++ [task "3" "C" false])
    (mkDragEnd (js "9") (Some (js "1")))
  = Some <$> insertAt 0 (task "3" "C" false)
               [task "1" "A" false; task "2" "B" false].
Proof.
  apply (handleDragEnd_stale_id [task "1" "A" false; task "2" "B" false]
           (task "3" "C" false) (mkDragEnd (js "9") (Some (js "1"))) 0);
    reflexivity.
Defined.

(** *** Reordering a filtered view *)

Section FilterFacts.
Context {A : Type}.
Implicit Types (l : list A) (p q : A -> bool).








Lemma filter_length_le p l : (length (List.filter p l) ≤ length l)%nat.
Proof. induction l as [|x l IH]; simpl; [lia|]. destruct (p x); simpl; lia. Qed.

End FilterFacts.






(** ** Deleting *)

Lemma filter_all {A} (p : A -> bool) (l : list A) :
  (∀ y, y ∈ l → p y = true) → List.filter p l = l.
Proof.
  induction l as [|x l IH]; simpl; intros Hp; [done|].
  rewrite Hp by left. f_equal. apply IH. intros y Hy. apply Hp. by right.
Qed.

Lemma setTodos_same s : App.setTodos (App.todos s) s = s.
Proof. by destruct s. Qed.

(** Two places of a store with distinct ids that hold one id are one place. *)
Lemma NoDup_ids_lookup todos (i k : nat) x y :
  NoDup (ids todos) → todos !! i = Some y → todos !! k = Some x →
  id y = id x → i = k.
Proof.
  intros Hnd Hi Hk Hid.
  eapply (NoDup_lookup _ _ _ _ Hnd); unfold ids; rewrite list_lookup_fmap.
  - by rewrite Hi.
  - rewrite Hk. simpl. by rewrite Hid.
Qed.

(** X6: [deleteTodo] keeps, in store order, exactly the tasks whose id is
    not the given one: afterwards no task has that id, and when no task had
    it the state is the state before. *)
Theorem deleteTodo_spec (target : jsstring) (s : App.State) :
  sublist (App.todos (App.deleteTodo target s)) (App.todos s) ∧
  (∀ x, x ∈ App.todos (App.deleteTodo target s) ↔
        x ∈ App.todos s ∧ id x ≠ target) ∧
  (target ∉ ids (App.todos (App.deleteTodo target s))) ∧
  (target ∉ ids (App.todos s) → App.deleteTodo target s = s).
Proof.
  unfold App.deleteTodo. simpl.
  assert (Hin : ∀ x, x ∈ List.filter (fun todo => bool_decide (id todo ≠ target))
                           (App.todos s) ↔ x ∈ App.todos s ∧ id x ≠ target).
  { intros x. rewrite !list_elem_of_In, filter_In, bool_decide_eq_true. done. }
  split_and!.
  - apply filter_sublist.
  - done.
  - unfold ids. intros (x & Hid & Hx)%list_elem_of_fmap.
    apply Hin in Hx as [_ Hx]. done.
  - intros Hnot. rewrite filter_all; [apply setTodos_same|].
    intros y Hy. apply bool_decide_eq_true. intros Hid. apply Hnot.
    unfold ids. apply list_elem_of_fmap. eauto.
Qed.

(** X7: in a store with distinct ids, deleting the id of the task at place
    [k] takes out that task and no other: the store is one task shorter and
    the tasks after place [k] move up by one. *)
Theorem deleteTodo_unique (s : App.State) (k : nat) (x : Todo) :
  NoDup (ids (App.todos s)) →
  App.todos s !! k = Some x →
  App.todos (App.deleteTodo (id x) s) = without k (App.todos s) ∧
  S (length (App.todos (App.deleteTodo (id x) s))) = length (App.todos s).
Proof.
  intros Hnd Hx.
  assert (Heq : App.todos (App.deleteTodo (id x) s) = without k (App.todos s)).
  { unfold App.deleteTodo. simpl.
    rewrite <- (take_drop_middle _ _ _ Hx) at 1.
    rewrite List.filter_app. simpl. rewrite bool_decide_false by naive_solver.
    unfold without. f_equal; apply filter_all; intros y Hy;
      apply bool_decide_eq_true; intros Hid;
      apply list_elem_of_lookup in Hy as [i Hi].
    - apply lookup_take_Some in Hi as [Hi Hlt].
      pose proof (NoDup_ids_lookup _ _ _ _ _ Hnd Hi Hx Hid). lia.
    - rewrite lookup_drop in Hi.
      pose proof (NoDup_ids_lookup _ _ _ _ _ Hnd Hi Hx Hid). lia. }
  split; [done|]. rewrite Heq. by apply (without_length _ _ x).
Qed.

Lemma deleteTodo_unique_witness :
  App.todos (App.deleteTodo (id (task "2" "B" true))
    (App.setTodos [task "1" "A" false; task "2" "B" true; task "3" "C" false]
       emptyState))
  = without 1
      (App.todos
         (App.setTodos [task "1" "A" false; task "2" "B" true; task "3" "C" false]
            emptyState)) ∧
  S (length (App.todos (App.deleteTodo (id (task "2" "B" true))
       (App.setTodos [task "1" "A" false; task "2" "B" true; task "3" "C" false]
          emptyState))))
  = length (App.todos
      (App.setTodos [task "1" "A" false; task "2" "B" true; task "3" "C" false]
         emptyState)).
Proof.
  apply (deleteTodo_unique
           (App.setTodos [task "1" "A" false; task "2" "B" true; task "3" "C" false]
              emptyState) 1 (task "2" "B" true)).
  - by_evaluation.
  - reflexivity.
Defined.

(** ** The summary counters *)

(** X8: the three counters of the summary line add up, [total] being the
    sum of [active] and [completed], and the two count the tasks that the
    [active] and the [completed] filter show. *)
Theorem summary_counts (todos : list Todo) :
  Summary.total todos = (Summary.active todos + Summary.completed todos)%nat ∧
  Summary.active todos = length (filteredTodos active todos) ∧
  Summary.completed todos = length (filteredTodos completed_ todos).
Proof.
  split_and!; [|done..].
  unfold Summary.total, Summary.active, Summary.completed.
  apply Interleave_length, (filter_Interleave completed).
Qed.

(** The store after a toggle of the id of the task at place [k], ids
    being distinct: that task toggled, the others as they were. *)
Lemma toggle_unique todos (k : nat) x now :
  NoDup (ids todos) → todos !! k = Some x →
  App.toggle1 (id x) now <$> todos
  = take k todos ++ App.toggle1 (id x) now x :: drop (S k) todos.
Proof.
  intros Hnd Hx. rewrite <- (take_drop_middle _ _ _ Hx) at 1.
  rewrite fmap_app, fmap_cons.
  assert (Hsame : ∀ l : list Todo,
            (∀ y, y ∈ l → id y ≠ id x) → App.toggle1 (id x) now <$> l = l).
  { intros l Hl. induction l as [|y l IH]; [done|]. csimpl.
    rewrite toggle1_other by (apply Hl; left). f_equal.
    apply IH. intros z Hz. apply Hl. by right. }
  f_equal; [|f_equal]; apply Hsame; intros y Hy Hid;
    apply list_elem_of_lookup in Hy as [i Hi].
  - apply lookup_take_Some in Hi as [Hi Hlt].
    pose proof (NoDup_ids_lookup _ _ _ _ _ Hnd Hi Hx Hid). lia.
  - rewrite lookup_drop in Hi.
    pose proof (NoDup_ids_lookup _ _ _ _ _ Hnd Hi Hx Hid). lia.
Qed.

(** Another element at place [k], counted through a filter. *)
Lemma filter_length_replace {A} (p : A -> bool) (l : list A) (k : nat) x y :
  l !! k = Some x →
  (length (List.filter p (take k l ++ y :: drop (S k) l))
     + (if p x then 1 else 0)
   = length (List.filter p l) + (if p y then 1 else 0))%nat.
Proof.
  intros Hx.
  assert (List.filter p l
          = List.filter p (take k l) ++ List.filter p (x :: drop (S k) l)) as ->.
  { rewrite <- List.filter_app. by rewrite take_drop_middle. }
  rewrite List.filter_app, !length_app. simpl.
  destruct (p x), (p y); simpl; lia.
Qed.

(** X9: in a store with distinct ids, the checkbox of a task moves one unit
    between the [active] and the [completed] counter and leaves [total]:
    ticking a task that is not completed takes one from [active] and gives
    one to [completed], and unticking a completed task does the reverse. *)
Theorem toggleTodo_counts (s : App.State) (k : nat) (x : Todo) (now : Z) :
  NoDup (ids (App.todos s)) →
  App.todos s !! k = Some x →
  Summary.total (App.todos (App.toggleTodo (id x) now s))
    = Summary.total (App.todos s) ∧
  if completed x then
    Summary.active (App.todos (App.toggleTodo (id x) now s))
      = S (Summary.active (App.todos s)) ∧
    S (Summary.completed (App.todos (App.toggleTodo (id x) now s)))
      = Summary.completed (App.todos s)
  else
    S (Summary.active (App.todos (App.toggleTodo (id x) now s)))
      = Summary.active (App.todos s) ∧
    Summary.completed (App.todos (App.toggleTodo (id x) now s))
      = S (Summary.completed (App.todos s)).
Proof.
  intros Hnd Hx. unfold App.toggleTodo. simpl.
  split; [unfold Summary.total; by rewrite length_fmap|].
  rewrite (toggle_unique _ _ _ _ Hnd Hx).
  unfold Summary.active, Summary.completed.
  pose proof (filter_length_replace (fun t => negb (completed t)) _ _ _
                (App.toggle1 (id x) now x) Hx) as Ha.
  pose proof (filter_length_replace (fun t => completed t) _ _ _
                (App.toggle1 (id x) now x) Hx) as Hc.
  simpl in Ha, Hc. destruct (toggle1_target now x) as (Ht & _).
  rewrite Ht in Ha, Hc. destruct (completed x); simpl in *; lia.
Qed.

Lemma toggleTodo_counts_witness :
  Summary.total (App.todos (App.toggleTodo (id (task "2" "B" false)) 7
    (App.setTodos [task "1" "A" false; task "2" "B" false] emptyState)))
    = Summary.total (App.todos
        (App.setTodos [task "1" "A" false; task "2" "B" false] emptyState)) ∧
  S (Summary.active (App.todos (App.toggleTodo (id (task "2" "B" false)) 7
    (App.setTodos [task "1" "A" false; task "2" "B" false] emptyState))))
    = Summary.active (App.todos
        (App.setTodos [task "1" "A" false; task "2" "B" false] emptyState)) ∧
  Summary.completed (App.todos (App.toggleTodo (id (task "2" "B" false)) 7
    (App.setTodos [task "1" "A" false; task "2" "B" false] emptyState)))
    = S (Summary.completed (App.todos
        (App.setTodos [task "1" "A" false; task "2" "B" false] emptyState))).
Proof.
  apply (toggleTodo_counts
           (App.setTodos [task "1" "A" false; task "2" "B" false] emptyState)
           1 (task "2" "B" false) 7).
  - by_evaluation.
  - reflexivity.
Defined.

(** ** Editing *)

(** X10: in a store with distinct ids, opening the edit of a task of the
    store and committing it with nothing typed leaves the store as it was. *)
Theorem edit_untouched (s : App.State) (todo : Todo) :
  NoDup (ids (App.todos s)) →
  todo ∈ App.todos s →
  App.todos (App.submitEdit (App.startEditing todo s)) = App.todos s.
Proof.
  intros Hnd Hin. unfold App.submitEdit, App.startEditing. simpl.
  rewrite <- (list_fmap_id (App.todos s)) at 2.
  apply list_fmap_ext. intros _ y Hy%list_elem_of_lookup_2. simpl.
  unfold App.edit1. case_bool_decide as Hid; [|done].
  rewrite (NoDup_fmap_elem id _ y todo Hnd Hy Hin Hid). by destruct todo.
Qed.

Lemma edit_untouched_witness :
  App.todos (App.submitEdit (App.startEditing (task "2" "B" true)
    (App.setTodos [task "1" "A" false; task "2" "B" true] emptyState)))
  = App.todos (App.setTodos [task "1" "A" false; task "2" "B" true] emptyState).
Proof.
  apply (edit_untouched
           (App.setTodos [task "1" "A" false; task "2" "B" true] emptyState)
           (task "2" "B" true)); by_evaluation.
Defined.

(** X11: in the edit input only the Enter key reaches the store.  After an
    edit is opened and any text typed, Escape gives back the store as it
    was, closes the session and leaves nothing for a later blur to commit;
    a key that is neither Enter nor Escape changes nothing at all. *)
Theorem editKeyDown_discards (s : App.State) (todo : Todo)
    (typed key : jsstring) :
  let s1 := App.setEditingText typed (App.startEditing todo s) in
  (key ≠ js "Enter" → App.todos (editKeyDown key s1) = App.todos s) ∧
  (key ≠ js "Enter" → key ≠ js "Escape" → editKeyDown key s1 = s1) ∧
  App.editingId (editKeyDown (js "Escape") s1) = None ∧
  App.editingText (editKeyDown (js "Escape") s1) = [] ∧
  App.submitEdit (editKeyDown (js "Escape") s1) = editKeyDown (js "Escape") s1.
Proof.
  unfold editKeyDown. split_and!.
  - intros Hk. rewrite bool_decide_false by done. by case_bool_decide.
  - intros Hk1 Hk2. by rewrite !bool_decide_false by done.
  - done.
  - done.
  - done.
Qed.

(** X12: committing twice is committing once: after [submitEdit] the
    session is closed, so the blur that follows an Enter finds nothing to
    write, whatever the state was. *)
Theorem submitEdit_once (s : App.State) :
  App.submitEdit (App.submitEdit s) = App.submitEdit s ∧
  editKeyDown (js "Enter") s = App.submitEdit s ∧
  App.editingId (App.submitEdit s) = None.
Proof.
  unfold editKeyDown, App.submitEdit.
  destruct (App.editingId s) eqn:Hid; simpl; rewrite ?Hid; done.
Qed.

(** ** Ids and the clock *)

Lemma digits_inj u v : digits u = digits v → u = v.
Proof.
  revert v. induction u as [|u IH|u IH|u IH|u IH|u IH|u IH|u IH|u IH|u IH|u IH];
    intros [|v|v|v|v|v|v|v|v|v|v] H; simpl in H; try discriminate H;
    try done; injection H as H; f_equal; by apply IH.
Qed.

Lemma digits_no_sign u v : digits u ≠ 45%N :: v.
Proof. destruct u; simpl; discriminate. Qed.

(** Two clock readings print alike only when they are one reading. *)
Lemma Number_toString_inj n m : Number_toString n = Number_toString m → n = m.
Proof.
  unfold Number_toString. intros H. apply DecimalZ.to_int_inj.
  destruct (Z.to_int n) as [u|u], (Z.to_int m) as [v|v].
  - f_equal. by apply digits_inj.
  - by apply digits_no_sign in H.
  - symmetry in H. by apply digits_no_sign in H.
  - injection H as H. f_equal. by apply digits_inj.
Qed.

Lemma clockReadings_cons a acts :
  clockReadings (a :: acts)
  = match a with App.AddTodo now _ => [now] | _ => [] end ++ clockReadings acts.
Proof. by destruct a. Qed.

(** The ids after an action: the ids before, and the one an add made. *)
Lemma dispatch_ids_from Date_parse a s s' i :
  App.dispatch Date_parse a s = Some s' →
  i ∈ ids (App.todos s') →
  i ∈ ids (App.todos s) ∨
  ∃ now created, a = App.AddTodo now created ∧ i = Number_toString now.
Proof.
  intros Hstep Hi.
  destruct (dispatch_todos _ _ _ _ Hstep)
    as [Heq|[(now&created&todo&->&_&Heq&Hid&_)
       |[(?&?&Heq)|[(?&?&Heq)|[(p&Heq)|(?&_&Hp)]]]]]; rewrite ?Heq in Hi.
  - by left.
  - unfold ids in Hi. rewrite fmap_app, elem_of_app in Hi.
    destruct Hi as [Hi|Hi%list_elem_of_singleton]; [by left|].
    right. exists now, created. split; [done|]. simpl in Hi. congruence.
  - left. by rewrite ids_toggle in Hi.
  - left. by rewrite ids_edit in Hi.
  - left. unfold ids in *. apply list_elem_of_fmap in Hi as (x & -> & Hx).
    apply list_elem_of_In, filter_In in Hx as [Hx _].
    apply list_elem_of_fmap. exists x. split; [done|]. by apply list_elem_of_In.
  - left. unfold ids in *. by rewrite Hp in Hi.
Qed.

(** X13: ids stay pairwise distinct along a run of user actions in which the
    adds read pairwise distinct values from the clock, none of them printing
    as an id the store had at the start: a clock reading prints as one
    decimal string only, so the ids of such adds differ. *)
Theorem distinct_readings_distinct_ids (Date_parse : jsstring -> Date)
    (acts : list App.Action) (s s' : App.State) :
  NoDup (ids (App.todos s)) →
  NoDup (clockReadings acts) →
  (∀ t, t ∈ clockReadings acts → Number_toString t ∉ ids (App.todos s)) →
  App.run Date_parse acts s = Some s' →
  NoDup (ids (App.todos s')).
Proof.
  revert s. induction acts as [|a acts IH]; intros s Hnd Hclock Hnew Hrun;
    simpl in Hrun.
  - by simplify_eq.
  - destruct (App.dispatch Date_parse a s) as [s1|] eqn:Hstep; [|done].
    rewrite clockReadings_cons in Hclock.
    setoid_rewrite clockReadings_cons in Hnew.
    apply NoDup_app in Hclock as (_ & Hdisj & Hrest).
    apply (IH s1); [|done| |done].
    + eapply dispatch_ids; [done| |done].
      intros now created ->. right. apply Hnew.
      apply elem_of_app. left. by apply list_elem_of_singleton.
    + intros t Ht Hin.
      destruct (dispatch_ids_from _ _ _ _ _ Hstep Hin)
        as [Hold|(now & created & -> & Heq%Number_toString_inj)].
      * eapply Hnew; [|done]. apply elem_of_app. by right.
      * subst t. eapply Hdisj; [|done]. by apply list_elem_of_singleton.
Qed.

Lemma distinct_readings_distinct_ids_witness :
  NoDup (ids
    [ {| id := js "1700000000000"; text := js "A"; completed := false;
         createdAt := Instant 1700000000001; completedAt := Absent;
         deadline := Undefined |};
      {| id := js "1700000000750"; text := js "B"; completed := false;
         createdAt := Instant 1700000000750; completedAt := Absent;
         deadline := Undefined |} ]).
Proof.
  apply (distinct_readings_distinct_ids noDates
    [ App.TypeNewTodo (js "A"); App.AddTodo 1700000000000 1700000000001;
      App.TypeNewTodo (js "B"); App.AddTodo 1700000000750 1700000000750;
      App.HighlightTimeout ]
    emptyState
    (App.mkState
      [ {| id := js "1700000000000"; text := js "A"; completed := false;
           createdAt := Instant 1700000000001; completedAt := Absent;
           deadline := Undefined |};
        {| id := js "1700000000750"; text := js "B"; completed := false;
           createdAt := Instant 1700000000750; completedAt := Absent;
           deadline := Undefined |} ]
      [] [] None [] all None)).
  - constructor.
  - by_evaluation.
  - intros t _. simpl. apply not_elem_of_nil.
  - reflexivity.
Defined.

(** ** What an action can do to the store *)

Lemma dispatch_length Date_parse a s s' :
  App.dispatch Date_parse a s = Some s' →
  match a with
  | App.AddTodo _ _ =>
      length (App.todos s') = length (App.todos s) ∨
      length (App.todos s') = S (length (App.todos s))
  | App.DeleteTodo _ => (length (App.todos s') ≤ length (App.todos s))%nat
  | _ => length (App.todos s') = length (App.todos s)
  end.
Proof.
  destruct a; simpl; intros Hstep; simplify_eq; simpl; try done.
  - unfold App.addTodo. case_bool_decide; simpl; [by left|right].
    rewrite length_app. simpl. lia.
  - by rewrite length_fmap.
  - apply filter_length_le.
  - unfold App.submitEdit. destruct (App.editingId s); simpl; [|done].
    by rewrite length_fmap.
  - destruct (App.defined _) as [l|] eqn:Hl; simplify_eq.
    apply handleDragEnd_defined in Hl. simpl. by rewrite Hl.
Qed.

(** X14: typing, picking a date, opening or cancelling an edit, changing the
    filter and the end of the highlight leave the store as it is; of the
    other actions only an add makes the store longer, by one task, and only
    a delete makes it shorter. *)
Theorem dispatch_frame (Date_parse : jsstring -> Date) (a : App.Action)
    (s s' : App.State) :
  App.dispatch Date_parse a s = Some s' →
  match a with
  | App.AddTodo _ _ | App.ToggleTodo _ _ | App.DeleteTodo _
  | App.SubmitEdit | App.DragEnd _ => True
  | _ => App.todos s' = App.todos s
  end ∧
  (length (App.todos s') ≤ S (length (App.todos s)))%nat ∧
  (length (App.todos s) < length (App.todos s') →
     ∃ now created, a = App.AddTodo now created)%nat ∧
  (length (App.todos s') < length (App.todos s) →
     ∃ target, a = App.DeleteTodo target)%nat.
Proof.
  intros Hstep. split.
  { destruct a; simpl in Hstep; by simplify_eq. }
  pose proof (dispatch_length _ _ _ _ Hstep) as Hlen.
  destruct a; split_and!; try lia; intros; try lia; by eauto.
Qed.

Lemma dispatch_frame_witness :
  True ∧
  (length [task "2" "B" true]
     ≤ S (length [task "1" "A" false; task "2" "B" true]))%nat ∧
  (length [task "1" "A" false; task "2" "B" true] < length [task "2" "B" true] →
     ∃ now created, App.DeleteTodo (js "1") = App.AddTodo now created)%nat ∧
  (length [task "2" "B" true] < length [task "1" "A" false; task "2" "B" true] →
     ∃ target, App.DeleteTodo (js "1") = App.DeleteTodo target)%nat.
Proof.
  apply (dispatch_frame noDates (App.DeleteTodo (js "1"))
           (App.setTodos [task "1" "A" false; task "2" "B" true] emptyState)
           (App.setTodos [task "2" "B" true] emptyState)).
  reflexivity.
Defined.

Lemma origin_toggle target now todo : origin (App.toggle1 target now todo) = origin todo.
Proof.
  unfold origin, App.toggle1. case_bool_decide; [|done]. by destruct (completed todo).
Qed.

Lemma origin_edit target newText todo : origin (App.edit1 target newText todo) = origin todo.
Proof. unfold origin, App.edit1. by case_bool_decide. Qed.

(** Where a task of the store after an action comes from. *)
Lemma dispatch_origin Date_parse a s s' todo' :
  App.dispatch Date_parse a s = Some s' →
  todo' ∈ App.todos s' →
  (∃ todo, todo ∈ App.todos s ∧ origin todo = origin todo') ∨
  (∃ now created, a = App.AddTodo now created ∧
     id todo' = Number_toString now ∧ createdAt todo' = Instant created).
Proof.
  destruct a; simpl; intros Hstep Hin; simplify_eq; simpl in Hin;
    try (left; by exists todo').
  - unfold App.addTodo in Hin. case_bool_decide; simpl in Hin.
    + left. by exists todo'.
    + apply elem_of_app in Hin as [Hin|Hin%list_elem_of_singleton].
      * left. by exists todo'.
      * right. exists now, created. by subst.
  - apply list_elem_of_fmap in Hin as (todo & -> & Hin).
    left. exists todo. by rewrite origin_toggle.
  - apply list_elem_of_In, filter_In in Hin as [Hin _].
    left. exists todo'. split; [by apply list_elem_of_In|done].
  - unfold App.submitEdit in Hin. destruct (App.editingId s); simpl in Hin.
    + apply list_elem_of_fmap in Hin as (todo & -> & Hin).
      left. exists todo. by rewrite origin_edit.
    + left. by exists todo'.
  - destruct (App.defined _) as [l|] eqn:Hl; simplify_eq.
    apply handleDragEnd_defined in Hl. simpl in Hin. rewrite Hl in Hin.
    left. by exists todo'.
Qed.

(** X15: no run of user actions changes the id, the creation date or the
    deadline of a task: a task of the store after the run has the three of
    a task of the store before it, or was made by an add of the run, with
    the id and the creation date that add read from the clock. *)
Theorem run_origin (Date_parse : jsstring -> Date) (acts : list App.Action)
    (s s' : App.State) (todo' : Todo) :
  App.run Date_parse acts s = Some s' →
  todo' ∈ App.todos s' →
  (∃ todo, todo ∈ App.todos s ∧ origin todo = origin todo') ∨
  (∃ now created, App.AddTodo now created ∈ acts ∧
     id todo' = Number_toString now ∧ createdAt todo' = Instant created).
Proof.
  revert s. induction acts as [|a acts IH]; simpl; intros s Hrun Hin.
  - simplify_eq. left. by exists todo'.
  - destruct (App.dispatch Date_parse a s) as [s1|] eqn:Hstep; [|done].
    destruct (IH s1 Hrun Hin) as [(todo1 & Hin1 & Ho1)|(now & created & Ha & ?)].
    + destruct (dispatch_origin _ _ _ _ _ Hstep Hin1)
        as [(todo & Hin0 & Ho)|(now & created & -> & Hid & Hc)].
      * left. exists todo. split; [done|congruence].
      * right. exists now, created. split; [by left|].
        unfold origin in Ho1. injection Ho1 as H1 H2 H3. split; congruence.
    + right. exists now, created. split; [by right|done].
Qed.

Lemma run_origin_witness :
  (∃ todo, todo ∈ App.todos (App.setTodos [dueTask] emptyState) ∧
           origin todo = origin
             {| id := js "1"; text := js "A, today"; completed := true;
                createdAt := Instant 0; completedAt := Present (Instant 9);
                deadline := Present (DateObj (Instant 86400000)) |}) ∨
  (∃ now created,
     App.AddTodo now created ∈
       [ App.StartEditing dueTask; App.TypeEditingText (js "A, today");
         App.SubmitEdit; App.ToggleTodo (js "1") 9 ] ∧
     id {| id := js "1"; text := js "A, today"; completed := true;
           createdAt := Instant 0; completedAt := Present (Instant 9);
           deadline := Present (DateObj (Instant 86400000)) |}
       = Number_toString now ∧
     createdAt
       {| id := js "1"; text := js "A, today"; completed := true;
          createdAt := Instant 0; completedAt := Present (Instant 9);
          deadline := Present (DateObj (Instant 86400000)) |}
       = Instant created).
Proof.
  apply (run_origin noDates
    [ App.StartEditing dueTask; App.TypeEditingText (js "A, today");
      App.SubmitEdit; App.ToggleTodo (js "1") 9 ]
    (App.setTodos [dueTask] emptyState)
    (App.setTodos
       [ {| id := js "1"; text := js "A, today"; completed := true;
            createdAt := Instant 0; completedAt := Present (Instant 9);
            deadline := Present (DateObj (Instant 86400000)) |} ]
       emptyState)).
  - reflexivity.
  - by_evaluation.
Defined.

(** ** Overdue tasks *)

(** X16: ticking an overdue task takes the overdue mark from it, and
    unticking it brings the mark back, at whatever times the two happen: the
    mark needs the task not completed, and a toggle keeps the deadline. *)
Theorem isOverdue_toggle (Date_parse : jsstring -> Date) (midnight : Z)
    (todo : Todo) (now1 now2 : Z) :
  isOverdue Date_parse midnight todo = true →
  completed todo = false ∧
  isOverdue Date_parse midnight (App.toggle1 (id todo) now1 todo) = false ∧
  isOverdue Date_parse midnight
    (App.toggle1 (id todo) now2 (App.toggle1 (id todo) now1 todo)) = true.
Proof.
  unfold isOverdue, App.toggle1. intros H.
  rewrite bool_decide_true by done.
  destruct todo as [i t c cr ca d]; simpl in *.
  destruct d as [| |v]; try done.
  destruct c; simpl in *.
  { by rewrite andb_false_r in H. }
  rewrite bool_decide_true by done. simpl.
  split_and!; [done| |done]. by rewrite andb_false_r.
Qed.

Lemma isOverdue_toggle_witness :
  completed dueTask = false ∧
  isOverdue noDates 172800000 (App.toggle1 (id dueTask) 5 dueTask) = false ∧
  isOverdue noDates 172800000
    (App.toggle1 (id dueTask) 6 (App.toggle1 (id dueTask) 5 dueTask)) = true.
Proof.
  apply (isOverdue_toggle noDates 172800000 dueTask 5 6). reflexivity.
Defined.

Section OverdueReload.

Variable toISOString : Z -> jsstring.
Variable Date_parse : jsstring -> Date.

(** X17: a task is overdue after a reload exactly when it was before it,
    though the reload leaves its deadline a string: [isOverdue] makes a date
    of the deadline either way.  This takes the ISO string of the deadline
    to be a non-empty string that the date parser reads back as its
    instant. *)
Theorem isOverdue_reloaded (midnight : Z) (todo : Todo) :
  dates_read_back toISOString Date_parse todo →
  isOverdue Date_parse midnight (reloaded toISOString Date_parse todo)
  = isOverdue Date_parse midnight todo.
Proof.
  intros (_ & _ & Hd). unfold isOverdue, reloaded.
  destruct todo as [i t c cr ca d]; simpl in *.
  destruct d as [| |[[ms|]|j]], c; simpl in *; try done;
    destruct Hd as [Hiso Hne]; by rewrite Hne, Hiso.
Qed.

End OverdueReload.

Lemma isOverdue_reloaded_witness :
  isOverdue sample_Date_parse 172800000
    (reloaded sample_toISOString sample_Date_parse dueTask)
  = isOverdue sample_Date_parse 172800000 dueTask.
Proof.
  apply (isOverdue_reloaded sample_toISOString sample_Date_parse 172800000 dueTask).
  split_and!; try exact I; split; reflexivity.
Defined.

(** ** Persistence, continued *)

Section ReloadFacts.

Variable toISOString : Z -> jsstring.
Variable Date_parse : jsstring -> Date.
Variable JSON_stringify : list App.StoredTodo -> jsstring.
Variable JSON_parse : jsstring -> option App.JSONValue.

Local Abbreviation load := (App.load Date_parse JSON_parse).
Local Abbreviation saveTodos := (App.saveTodos toISOString JSON_stringify).
Local Abbreviation reloadedTodo := (reloaded toISOString Date_parse).

(** X18: the loader validates nothing: an array of [n] task objects is
    loaded as [n] tasks in the order of the array, each with the id, the
    text and the completion flag it has in the array, whatever they are, and
    a deadline that is no [Date] object. *)
Theorem load_elements (stored : jsstring) (elements : list App.StoredTodo) :
  truthy stored = true →
  JSON_parse stored = Some (App.JArray (Some <$> elements)) →
  length (load (Some stored)) = length elements ∧
  ∀ (i : nat) e, elements !! i = Some e →
    ∃ todo, load (Some stored) !! i = Some todo ∧
      id todo = App.s_id e ∧ text todo = App.s_text e ∧
      completed todo = App.s_completed e ∧
      ∀ d, deadline todo ≠ Present (DateObj d).
Proof.
  intros Htext Hparse.
  assert (Hload : load (Some stored) = App.revive Date_parse <$> elements).
  { rewrite load_try, Htext. unfold App.parseTodos. rewrite Hparse.
    assert (H : mapM (fun e => App.revive Date_parse <$> e) (Some <$> elements)
                = Some (App.revive Date_parse <$> elements)); [|by rewrite H].
    apply mapM_Some.
    apply Forall2_fmap_l, Forall2_fmap_r, Forall_Forall2_diag.
    by apply Forall_forall. }
  rewrite Hload. split; [by rewrite length_fmap|].
  intros i e Hi. rewrite list_lookup_fmap, Hi. eexists; split; [done|].
  simpl. split_and!; try done. by destruct (App.s_deadline e).
Qed.

(** The reload of a reloaded task is that task. *)
Lemma reloaded_twice todo :
  dates_read_back toISOString Date_parse todo →
  createdAt todo ≠ InvalidDate →
  reloadedTodo (reloadedTodo todo) = reloadedTodo todo.
Proof.
  intros (Hc & Hca & _) Hvalid. unfold reloaded.
  destruct todo as [i t c cr ca d]; simpl in *.
  unfold App.revive, App.toStored; simpl.
  destruct cr as [ms|]; [|done]. destruct Hc as [Hiso Hne].
  simpl. rewrite Hiso. simpl. rewrite Hiso. f_equal.
  - destruct ca as [| |[ms'|]]; simpl; try done.
    destruct Hca as [Hiso' Hne']. by rewrite Hne', Hiso'; simpl; rewrite Hne', Hiso'.
  - by destruct d as [| |[[ms'|]|j]].
Qed.

(** X19: saving and loading settles after one round: what is loaded from
    the saved store is loaded again, unchanged, from its own saved form.
    This takes [JSON.parse] to return the arrays that [JSON.stringify] wrote
    for the two stores, as non-empty texts, the dates of the tasks to read
    back from their ISO strings, and the creation dates to be valid. *)
Theorem reload_twice (todos : list Todo) :
  Forall (dates_read_back toISOString Date_parse) todos →
  Forall (fun todo => createdAt todo ≠ InvalidDate) todos →
  JSON_parse (saveTodos todos)
    = Some (App.JArray (Some <$> (App.toStored toISOString <$> todos))) →
  truthy (saveTodos todos) = true →
  JSON_parse (saveTodos (reloadedTodo <$> todos))
    = Some (App.JArray
              (Some <$> (App.toStored toISOString <$> (reloadedTodo <$> todos)))) →
  truthy (saveTodos (reloadedTodo <$> todos)) = true →
  load (Some (saveTodos (load (Some (saveTodos todos)))))
  = load (Some (saveTodos todos)).
Proof.
  intros Hdates Hvalid Hparse Htext Hparse' Htext'.
  rewrite (load_save toISOString Date_parse JSON_stringify JSON_parse todos)
    by done.
  change (fun todo => App.revive Date_parse (App.toStored toISOString todo))
    with reloadedTodo.
  rewrite (load_save toISOString Date_parse JSON_stringify JSON_parse
             (reloadedTodo <$> todos)) by done.
  change (fun todo => App.revive Date_parse (App.toStored toISOString todo))
    with reloadedTodo.
  rewrite <- list_fmap_compose. apply list_fmap_ext.
  intros i todo Hi%list_elem_of_lookup_2. simpl.
  rewrite Forall_forall in Hdates, Hvalid.
  apply reloaded_twice; auto.
Qed.

End ReloadFacts.

Lemma load_elements_witness :
  length (App.load noDates odd_parse (Some oddText)) = length oddStored ∧
  ∀ (i : nat) e, oddStored !! i = Some e →
    ∃ todo, App.load noDates odd_parse (Some oddText) !! i = Some todo ∧
      id todo = App.s_id e ∧ text todo = App.s_text e ∧
      completed todo = App.s_completed e ∧
      ∀ d, deadline todo ≠ Present (DateObj d).
Proof.
  apply (load_elements noDates odd_parse oddText oddStored); reflexivity.
Defined.

Lemma reload_twice_witness :
  App.load sample_Date_parse sample_parse
    (Some (App.saveTodos sample_toISOString sample_stringify
       (App.load sample_Date_parse sample_parse
          (Some (App.saveTodos sample_toISOString sample_stringify [dueTask])))))
  = App.load sample_Date_parse sample_parse
      (Some (App.saveTodos sample_toISOString sample_stringify [dueTask])).
Proof.
  apply (reload_twice sample_toISOString sample_Date_parse sample_stringify
           sample_parse [dueTask]).
  - constructor; [|constructor]. split_and!; try exact I; split; reflexivity.
  - constructor; [discriminate|constructor].
  - reflexivity.
  - reflexivity.
  - reflexivity.
  - reflexivity.
Defined.

(** ** The theme *)

(** X20: the theme survives a restart: what the effect stores for a value
    of [darkMode] is read back by the initializer as that value, whatever the
    system prefers.  With nothing stored, or the empty string, the system
    preference decides; a stored string other than [dark] means light. *)
Theorem theme_round_trip (darkMode prefersDark : bool) (p : Theme.Page) :
  Theme.initialDarkMode true (Theme.theme (Theme.applyDarkMode darkMode p))
    prefersDark = darkMode ∧
  Theme.initialDarkMode true None prefersDark = prefersDark ∧
  Theme.initialDarkMode true (Some []) prefersDark = prefersDark ∧
  (∀ stored, truthy stored = true → stored ≠ js "dark" →
     Theme.initialDarkMode true (Some stored) prefersDark = false).
Proof.
  split_and!; [by destruct darkMode|done|done|].
  intros stored Ht Hne. unfold Theme.initialDarkMode. rewrite Ht.
  by apply bool_decide_eq_false.
Qed.

Lemma classList_remove_elem token classes c :
  c ∈ Theme.classList_remove token classes ↔ c ∈ classes ∧ c ≠ token.
Proof.
  unfold Theme.classList_remove.
  by rewrite !list_elem_of_In, filter_In, bool_decide_eq_true.
Qed.

Lemma classList_add_elem token classes c :
  c ∈ Theme.classList_add token classes ↔ c ∈ classes ∨ c = token.
Proof.
  unfold Theme.classList_add. case_bool_decide as Hin.
  - split; [by left|]. by intros [?| ->].
  - rewrite elem_of_app, list_elem_of_singleton. done.
Qed.

(** X21: after the effect the root element has the class [dark] exactly in
    dark mode; the other classes are the ones it had, no class is there
    twice, and running the effect again changes nothing. *)
Theorem applyDarkMode_classes (darkMode : bool) (p : Theme.Page) :
  NoDup (Theme.classes p) →
  (js "dark" ∈ Theme.classes (Theme.applyDarkMode darkMode p)
     ↔ darkMode = true) ∧
  (∀ c, c ≠ js "dark" →
     c ∈ Theme.classes (Theme.applyDarkMode darkMode p) ↔ c ∈ Theme.classes p) ∧
  NoDup (Theme.classes (Theme.applyDarkMode darkMode p)) ∧
  Theme.applyDarkMode darkMode (Theme.applyDarkMode darkMode p)
    = Theme.applyDarkMode darkMode p.
Proof.
  intros Hnd. destruct darkMode; simpl.
  - split_and!.
    + rewrite classList_add_elem. split; [done|]. intros _. by right.
    + intros c Hc. rewrite classList_add_elem. split; [by intros [?|?]|].
      intros ?. by left.
    + unfold Theme.classList_add. case_bool_decide as Hin; [done|].
      apply NoDup_app. split_and!; [done| |apply NoDup_singleton].
      intros c Hc ->%list_elem_of_singleton. done.
    + f_equal. unfold Theme.classList_add at 1.
      rewrite bool_decide_true; [done|]. rewrite classList_add_elem. by right.
  - split_and!.
    + rewrite classList_remove_elem. split; [by intros [_ ?]|done].
    + intros c Hc. rewrite classList_remove_elem. split; [by intros [? _]|done].
    + eapply sublist_NoDup; [done|]. apply filter_sublist.
    + f_equal. unfold Theme.classList_remove at 1. apply filter_all.
      intros c Hc%classList_remove_elem. apply bool_decide_eq_true. tauto.
Qed.

Lemma applyDarkMode_classes_witness :
  (js "dark" ∈ Theme.classes
     (Theme.applyDarkMode true (Theme.mkPage [js "h-full"] None)) ↔ true = true) ∧
  (∀ c, c ≠ js "dark" →
     c ∈ Theme.classes
       (Theme.applyDarkMode true (Theme.mkPage [js "h-full"] None))
     ↔ c ∈ Theme.classes (Theme.mkPage [js "h-full"] None)) ∧
  NoDup (Theme.classes
    (Theme.applyDarkMode true (Theme.mkPage [js "h-full"] None))) ∧
  Theme.applyDarkMode true
    (Theme.applyDarkMode true (Theme.mkPage [js "h-full"] None))
  = Theme.applyDarkMode true (Theme.mkPage [js "h-full"] None).
Proof.
  apply (applyDarkMode_classes true (Theme.mkPage [js "h-full"] None)).
  by_evaluation.
Defined.

(** ** Views and the store *)

Lemma filter_filter_comm {A} (p q : A -> bool) (l : list A) :
  List.filter p (List.filter q l) = List.filter q (List.filter p l).
Proof.
  induction l as [|x l IH]; simpl; [done|].
  destruct (p x) eqn:Hp, (q x) eqn:Hq; simpl; rewrite ?Hp, ?Hq, IH; done.
Qed.

(** X22: Enter in the add input, on text that is not blank, puts the new
    task at the bottom of the views [all] and [active] and leaves the view
    [completed] as it is; the new task has the text as typed.  Any other key
    leaves the state as it is. *)
Theorem addKeyPress_views (Date_parse : jsstring -> Date) (now created : Z)
    (s : App.State) :
  blank (App.newTodo s) = false →
  (∃ todo,
     text todo = App.newTodo s ∧
     App.todos (addKeyPress Date_parse (js "Enter") now created s)
       = App.todos s ++ [todo] ∧
     ∀ f, filteredTodos f
            (App.todos (addKeyPress Date_parse (js "Enter") now created s))
          = filteredTodos f (App.todos s)
            ++ match f with completed_ => [] | _ => [todo] end) ∧
  ∀ key, key ≠ js "Enter" → addKeyPress Date_parse key now created s = s.
Proof.
  intros Hb. split.
  - unfold addKeyPress. rewrite bool_decide_true by done.
    unfold App.addTodo.
    rewrite bool_decide_false by (rewrite trim_nil; congruence).
    eexists. split_and!.
    2: { simpl. reflexivity. }
    1: { done. }
    intros f. simpl. unfold filteredTodos. rewrite List.filter_app.
    by destruct f; simpl; rewrite ?app_nil_r.
  - intros key Hk. unfold addKeyPress. by rewrite bool_decide_false.
Qed.

Lemma addKeyPress_views_witness :
  (∃ todo,
     text todo = App.newTodo (App.setNewTodo (js "Buy milk") emptyState) ∧
     App.todos (addKeyPress noDates (js "Enter") 7 7
                  (App.setNewTodo (js "Buy milk") emptyState))
       = App.todos (App.setNewTodo (js "Buy milk") emptyState) ++ [todo] ∧
     ∀ f, filteredTodos f
            (App.todos (addKeyPress noDates (js "Enter") 7 7
                          (App.setNewTodo (js "Buy milk") emptyState)))
          = filteredTodos f
              (App.todos (App.setNewTodo (js "Buy milk") emptyState))
            ++ match f with completed_ => [] | _ => [todo] end) ∧
  ∀ key, key ≠ js "Enter" →
    addKeyPress noDates key 7 7 (App.setNewTodo (js "Buy milk") emptyState)
    = App.setNewTodo (js "Buy milk") emptyState.
Proof.
  apply (addKeyPress_views noDates 7 7
           (App.setNewTodo (js "Buy milk") emptyState)).
  reflexivity.
Defined.

(** X23: deleting and filtering commute: the view of the store after a
    delete is the view before it without the tasks of the deleted id, in
    every filter mode. *)
Theorem deleteTodo_views (f : Filter) (target : jsstring) (s : App.State) :
  filteredTodos f (App.todos (App.deleteTodo target s))
  = App.todos (App.deleteTodo target
                 (App.setTodos (filteredTodos f (App.todos s)) s)) ∧
  ∀ x, x ∈ filteredTodos f (App.todos (App.deleteTodo target s)) ↔
       x ∈ filteredTodos f (App.todos s) ∧ id x ≠ target.
Proof.
  assert (Heq : filteredTodos f (App.todos (App.deleteTodo target s))
    = App.todos (App.deleteTodo target
                   (App.setTodos (filteredTodos f (App.todos s)) s))).
  { unfold App.deleteTodo, filteredTodos. simpl. apply filter_filter_comm. }
  split; [done|]. intros x. rewrite Heq. unfold App.deleteTodo. simpl.
  by rewrite !list_elem_of_In, filter_In, bool_decide_eq_true, <- !list_elem_of_In.
Qed.

(** ** Reloading and the views *)

Section ReloadViews.

Variable toISOString : Z -> jsstring.
Variable Date_parse : jsstring -> Date.

Local Abbreviation reloadedTodo := (reloaded toISOString Date_parse).

Lemma filter_fmap_same {A} (p : A -> bool) (g : A -> A) (l : list A) :
  (∀ x, p (g x) = p x) → List.filter p (g <$> l) = g <$> List.filter p l.
Proof.
  intros Hp. induction l as [|x l IH]; csimpl; [done|].
  rewrite Hp. destruct (p x); csimpl; by rewrite IH.
Qed.

(** X24: a reload shows the tasks it showed: in every filter mode the view
    of the reloaded store is the reloaded view, task for task, so the three
    counters of the summary are what they were. *)
Theorem reload_views (f : Filter) (todos : list Todo) :
  filteredTodos f (reloadedTodo <$> todos) = reloadedTodo <$> filteredTodos f todos ∧
  Summary.total (reloadedTodo <$> todos) = Summary.total todos ∧
  Summary.active (reloadedTodo <$> todos) = Summary.active todos ∧
  Summary.completed (reloadedTodo <$> todos) = Summary.completed todos.
Proof.
  unfold filteredTodos, Summary.total, Summary.active, Summary.completed.
  rewrite !filter_fmap_same, !length_fmap; [done|..]; intros x; by destruct f.
Qed.

(** X25: a task in which [completedAt] holds a value exactly when it is
    completed is such a task after a reload, when its completion date is
    valid and reads back from its ISO string. *)
Theorem reloaded_consistent (todo : Todo) :
  dates_read_back toISOString Date_parse todo →
  completedAt todo ≠ Present InvalidDate →
  consistent todo →
  consistent (reloadedTodo todo).
Proof.
  intros (_ & Hca & _) Hvalid. unfold consistent, reloaded.
  destruct todo as [i t c cr ca d]; simpl in *. intros ->.
  destruct ca as [| |[ms|]]; simpl in *; try done.
  destruct Hca as [_ Hne]. by rewrite Hne.
Qed.

End ReloadViews.

Lemma reloaded_consistent_witness :
  consistent (reloaded sample_toISOString sample_Date_parse
    {| id := js "1"; text := js "A"; completed := true; createdAt := Instant 0;
       completedAt := Present (Instant 86400000); deadline := Undefined |}).
Proof.
  apply (reloaded_consistent sample_toISOString sample_Date_parse
    {| id := js "1"; text := js "A"; completed := true; createdAt := Instant 0;
       completedAt := Present (Instant 86400000); deadline := Undefined |}).
  - split_and!; try exact I; split; reflexivity.
  - discriminate.
  - reflexivity.
Defined.
